(** * The Met mini gallery (sketch.js): layout, hit-testing and the search pipeline

    A shallow embedding of [src/sketch.js].

    - JavaScript numbers are modelled by exact rationals ([Q]); [ceil], [floor]
      and [%] are the corresponding operations on rationals.  Equality of
      numbers is [Qeq] ([==]).  Where the rounding of the code's IEEE 754
      doubles decides a property (the bounds of the laid-out rectangles),
      the layout is also given in binary64 ([layoutGrid64]), with every
      operation rounded as the code rounds it.
    - The globals [loading], [errMsg], [items] and the text of the status
      element form the record [Globals]; every function that reads or writes
      them passes the record explicitly.
    - The network and the image loader are collaborators: they are functions
      on an abstract [World], arbitrary but total (every request settles).
    - An [async] function is a computation in the monad [Async]: it threads
      the globals and the world, may throw, and records the globals that the
      draw loop and the mouse handler can see at every [await]. *)

From Stdlib Require Import QArith Qround Lqa ZArith Lia Bool.
From Stdlib Require Import String Ascii DecimalString.
From Stdlib Require Import Floats.SpecFloat.
From stdpp Require Import base list.

Local Open Scope Q_scope.

(** ** Numbers *)

(** A loop index or a length, as a JavaScript number. *)
Definition num (n : nat) : Q := inject_Z (Z.of_nat n).

Definition ceil (q : Q) : Q := inject_Z (Qceiling q).
Definition floor (q : Q) : Q := inject_Z (Qfloor q).

(** [a % b]: the remainder has the sign of the dividend
    ([a - b * trunc (a / b)]). *)
Definition trunc (q : Q) : Z := if Qle_bool 0 q then Qfloor q else Qceiling q.
Definition rem (a b : Q) : Q := a - b * inject_Z (trunc (a / b)).

(** [a >= b] and [a <= b] on numbers. *)
Definition geq (a b : Q) : bool := Qle_bool b a.
Definition leq (a b : Q) : bool := Qle_bool a b.

(** ** Configuration constants (sketch.js, lines 13-16) and the canvas of
    [createCanvas(900, 560)] *)

Definition MAX_ITEMS : nat := 18.
Definition GRID_COLS : Q := 6.
Definition PAD : Q := 20.
Definition GAP : Q := 10.

Definition canvasWidth : Q := 900.
Definition canvasHeight : Q := 560.

(** ** JavaScript values read out of parsed JSON *)

#[local] Unset Elimination Schemes.
Inductive value : Type :=
  | VUndefined
  | VNull
  | VBool (b : bool)
  | VNum (q : Q)
  | VStr (s : string)
  | VArr (elems : list value)
  | VObj (fields : list (string * value)).
#[local] Set Elimination Schemes.

(** Truthiness, as tested by [||], [!] and [if]. *)
Definition truthy (v : value) : bool :=
  match v with
  | VUndefined | VNull => false
  | VBool b => b
  | VNum q => negb (Qeq_bool q 0)
  | VStr s => match s with EmptyString => false | String _ _ => true end
  | VArr _ | VObj _ => true
  end.

(** [a || b] *)
Definition js_or (a b : value) : value := if truthy a then a else b.

(** Reading a property of [null] or [undefined] throws a TypeError. *)
Definition nullish (v : value) : bool :=
  match v with VUndefined | VNull => true | _ => false end.

(** In a parsed JSON object the last occurrence of a duplicated key wins. *)
Fixpoint lookup_field (k : string) (fs : list (string * value)) : option value :=
  match fs with
  | [] => None
  | (k', v) :: rest =>
      match lookup_field k rest with
      | Some v' => Some v'
      | None => if String.eqb k k' then Some v else None
      end
  end.

(** [d.k] for a non-nullish [d] and one of the keys the program reads
    (none of them is an own property of a string, an array or a primitive). *)
Definition prop (d : value) (k : string) : value :=
  match d with
  | VObj fs => match lookup_field k fs with Some v => v | None => VUndefined end
  | _ => VUndefined
  end.

Section Tiles.

(** The decoded image handle that p5's [loadImage] passes to its callback. *)
Context {Image : Type}.

(** ** Records and tiles *)

(** The object returned by [fetchObject] (lines 172-178). *)
Record DetailRecord : Type := mkDetail {
  objectID : value;
  title : value;
  artist : value;
  date : value;
  imageUrl : value
}.

(** An element of [items]: [{ ...base, img, x, y, w, h }] (lines 141-145). *)
Record Item : Type := mkItem {
  base : DetailRecord;
  img : option Image;
  x : Q;
  y : Q;
  w : Q;
  h : Q
}.

(** ** layoutGrid (lines 195-215) *)

Definition layoutGrid (width height : Q) (items : list Item) : list Item :=
  let cols := GRID_COLS in
  let rows := ceil (num (length items) / cols) in
  let usableW := width - PAD * 2 in
  let usableH := height - PAD * 2 in
  let tileW := (usableW - GAP * (cols - 1)) / cols in
  let tileH := (usableH - GAP * (rows - 1)) / rows in
  imap (fun i it =>
          let col := rem (num i) cols in
          let row := floor (num i / cols) in
          mkItem (base it) (img it)
                 (PAD + col * (tileW + GAP))
                 (PAD + row * (tileH + GAP))
                 tileW
                 tileH) items.

(** The number of rows of a grid of [count] tiles in six columns, as an
    integer: the least [r] with [count <= 6 * r]. *)
Definition rowsZ (count : nat) : Z := ((Z.of_nat count + 5) / 6)%Z.

(** A rectangle of positive size inside the canvas minus the outer padding. *)
Definition within_canvas (tile : Item) : Prop :=
  0 < w tile /\ 0 < h tile /\
  PAD <= x tile /\ x tile + w tile <= canvasWidth - PAD /\
  PAD <= y tile /\ y tile + h tile <= canvasHeight - PAD.

(** The point [(px, py)] lies in the closed rectangle
    [x, x + w] x [y, y + h] of a tile. *)
Definition inside (px py : Q) (tile : Item) : Prop :=
  (x tile <= px /\ px <= x tile + w tile) /\
  (y tile <= py /\ py <= y tile + h tile).

(** The padding and gap regions of a grid of [count] tiles laid out on the
    900 x 560 canvas: the four outer margins, the vertical strips between
    two columns and the horizontal strips between two rows. *)
Definition in_padding_or_gap (count : nat) (px py : Q) : Prop :=
  let pitchW := 145 in
  let pitchH := 530 / inject_Z (rowsZ count) in
  px < PAD \/ canvasWidth - PAD < px \/
  py < PAD \/ canvasHeight - PAD < py \/
  (exists c : Z, PAD + inject_Z c * pitchW + (pitchW - GAP) < px /\
                 px < PAD + (inject_Z c + 1) * pitchW) \/
  (exists r : Z, PAD + inject_Z r * pitchH + (pitchH - GAP) < py /\
                 py < PAD + (inject_Z r + 1) * pitchH).

(** ** getHoveredItem (lines 217-224) *)

Definition hit (mx my : Q) (it : Item) : bool :=
  geq mx (x it) && leq mx (x it + w it) && geq my (y it) && leq my (y it + h it).

Fixpoint getHoveredItem (items : list Item) (mx my : Q) : option Item :=
  match items with
  | [] => None
  | it :: rest => if hit mx my it then Some it else getHoveredItem rest mx my
  end.

End Tiles.

Arguments DetailRecord : clear implicits.
Arguments Item : clear implicits.

(** ** Globals (lines 8-11) and the status element *)

Record Globals {Image : Type} : Type := mkGlobals {
  loading : bool;
  errMsg : option string;
  items : list (Item Image);
  statusText : string
}.
Arguments Globals : clear implicits.

Section GlobalUpdates.
Context {Image : Type}.
Implicit Types (g : Globals Image).

Definition set_loading (b : bool) g : Globals Image :=
  mkGlobals Image b (errMsg g) (items g) (statusText g).
Definition set_errMsg (e : option string) g : Globals Image :=
  mkGlobals Image (loading g) e (items g) (statusText g).
Definition set_items (l : list (Item Image)) g : Globals Image :=
  mkGlobals Image (loading g) (errMsg g) l (statusText g).

(** setStatus (lines 93-96), the status element being present in the page. *)
Definition setStatus (msg : string) g : Globals Image :=
  mkGlobals Image (loading g) (errMsg g) (items g) msg.

(** What [draw] shows (lines 47-58): the loading message, the error message
    (when [errMsg] is truthy), or the grid / the empty-state message. *)
Inductive Phase : Type := Loading | Error | Ready.

Definition phase g : Phase :=
  if loading g then Loading
  else match errMsg g with
       | Some (String _ _) => Error
       | Some EmptyString | None => Ready
       end.

(** The page opened by [window.open]:
    [https://www.metmuseum.org/art/collection/search/${objectID}]. *)
Inductive Url : Type := MetPage (id : value).

(** mousePressed (lines 77-84): the page it opens, if any. *)
Definition mousePressed g (mouseX mouseY : Q) : option Url :=
  match getHoveredItem (items g) mouseX mouseY with
  | Some hover => Some (MetPage (objectID (base hover)))
  | None => None
  end.

End GlobalUpdates.

(** ** Collaborators: the Met API and p5's image loader *)

(** A promise settles with a value or rejects with an error; a [throw] is
    the same outcome.  Only the error's [message] is ever read. *)
Inductive Outcome (A : Type) : Type :=
  | Ok (a : A)
  | Throw (message : string).
Arguments Ok {A} a.
Arguments Throw {A} message.

(** What the program reads of a [fetch] response: [res.ok], [res.status] and
    the settlement of [res.json()]. *)
Record Response (B : Type) : Type := mkResponse {
  ok : bool;
  status : N;
  json : Outcome B
}.
Arguments mkResponse {B}.
Arguments ok {B}.
Arguments status {B}.
Arguments json {B}.

(** The body of the search endpoint, [{ objectIDs: [id, ...] }]: [objectIDs]
    is an array, or is absent or [null] ([None]).  A body that is itself
    [null] makes [json.objectIDs] throw and is a [Throw] of [json]. *)
Record SearchJson : Type := mkSearchJson {
  objectIDs : option (list value)
}.

Class Collaborators : Type := {
  Image : Type;
  World : Type;
  (** [fetch] of the search URL, a function of the query *)
  fetchSearch : string -> World -> Outcome (Response SearchJson) * World;
  (** [fetch] of the object URL, a function of the identifier *)
  fetchDetail : value -> World -> Outcome (Response value) * World;
  (** p5's [loadImage]: the success callback with the image, or the failure
      callback *)
  loadImage : value -> World -> option Image * World
}.

(** ** Asynchronous computations *)

Section Pipeline.
Context `{Collaborators}.

(** The result of running a computation: the globals seen by the draw loop
    and the event handlers at each suspension point, in order, the outcome,
    and the final globals and world. *)
Record Run (A : Type) : Type := mkRun {
  seen : list (Globals Image);
  outcome : Outcome A;
  globals : Globals Image;
  world : World
}.
Arguments mkRun {A}.
Arguments seen {A}.
Arguments outcome {A}.
Arguments globals {A}.
Arguments world {A}.

Definition Async (A : Type) : Type := Globals Image -> World -> Run A.

Definition ret {A} (a : A) : Async A :=
  fun g net => mkRun [] (Ok a) g net.

Definition throw {A} (message : string) : Async A :=
  fun g net => mkRun [] (Throw message) g net.

Definition bind {A B} (m : Async A) (k : A -> Async B) : Async B :=
  fun g net =>
    let '(mkRun s o g1 net1) := m g net in
    match o with
    | Ok a =>
        let '(mkRun s' o' g2 net2) := k a g1 net1 in
        mkRun (s ++ s') o' g2 net2
    | Throw e => mkRun s (Throw e) g1 net1
    end.

(** [await p]: the function is suspended with the current globals on
    display, then resumes with the settlement of [p]. *)
Definition await {A} (p : World -> Outcome A * World) : Async A :=
  fun g net => let '(o, net') := p net in mkRun [g] o g net'.

(** Reading the globals. *)
Definition get : Async (Globals Image) :=
  fun g net => mkRun [] (Ok g) g net.

(** An assignment to the globals. *)
Definition update (f : Globals Image -> Globals Image) : Async unit :=
  fun g net => mkRun [] (Ok tt) (f g) net.

(** [try { m } catch (e) { handler e.message }] *)
Definition try_catch {A} (m : Async A) (handler : string -> Async A) : Async A :=
  fun g net =>
    let '(mkRun s o g1 net1) := m g net in
    match o with
    | Ok a => mkRun s (Ok a) g1 net1
    | Throw e =>
        let '(mkRun s' o' g2 net2) := handler e g1 net1 in
        mkRun (s ++ s') o' g2 net2
    end.

(** [try { m } finally { fin }]: [fin] runs on every exit of [m], also on
    [return]. *)
Definition try_finally {A} (m : Async A) (fin : Async unit) : Async A :=
  fun g net =>
    let '(mkRun s o g1 net1) := m g net in
    let '(mkRun s' o' g2 net2) := fin g1 net1 in
    mkRun (s ++ s')
          (match o' with Ok _ => o | Throw e => Throw e end)
          g2 net2.

End Pipeline.

Arguments Run {_} A.
Arguments Async {_} A.
Arguments mkRun {_ A}.
Arguments seen {_ A}.
Arguments outcome {_ A}.
Arguments globals {_ A}.
Arguments world {_ A}.

Declare Scope async_scope.
Delimit Scope async_scope with async.
Notation "x <- m ;; k" := (bind m (fun x => k))
  (at level 100, m at next level, right associativity) : async_scope.
Notation "m ;;; k" := (bind m (fun _ => k))
  (at level 100, right associativity) : async_scope.

(** ** Text of the messages *)

Definition dq : string := String (ascii_of_nat 34) EmptyString.
Definition ellipsis : string := "…".
Definition decimal (n : nat) : string := NilEmpty.string_of_uint (Nat.to_uint n).
Definition decimalN (n : N) : string := NilEmpty.string_of_uint (N.to_uint n).

Section SearchMet.
Context `{Collaborators}.
Local Open Scope async_scope.
Local Open Scope string_scope.

(** ** fetchObject (lines 160-182) *)

Definition fetchObject (id : value) : Async (option (DetailRecord)) :=
  try_catch
    (res <- await (fetchDetail id) ;;
     if negb (ok res) then ret None else
     d <- await (fun net => (json res, net)) ;;
     if nullish d then throw "TypeError" else
     let imgUrl := js_or (prop d "primaryImageSmall") (VStr EmptyString) in
     if negb (truthy imgUrl) then ret None else
     ret (Some (mkDetail
                  (prop d "objectID")
                  (js_or (prop d "title") (VStr "(untitled)"))
                  (js_or (prop d "artistDisplayName") (VStr "(unknown artist)"))
                  (js_or (prop d "objectDate") (VStr EmptyString))
                  imgUrl)))
    (fun _ => ret None).

(** ** loadP5Image (lines 184-193): resolves with the image or with [null] *)

Definition loadP5Image (url : value) : Async (option Image) :=
  await (fun net => let '(i, net') := loadImage url net in (Ok i, net')).

(** ** searchMet (lines 98-158) *)

(** The loop of lines 124-127, on the identifiers not yet tried. *)
Fixpoint fetchLoop (ids : list value) (picked : list DetailRecord)
  : Async (list DetailRecord) :=
  match ids with
  | [] => ret picked
  | id :: rest =>
      if (length picked <? MAX_ITEMS)%nat then
        obj <- fetchObject id ;;
        fetchLoop rest (match obj with
                        | Some o => picked ++ [o]
                        | None => picked
                        end)
      else ret picked
  end.

(** The loop of lines 137-148, on the records not yet loaded; [i] is the
    loop index and [n] is [picked.length]. *)
Fixpoint preloadLoop (rest : list DetailRecord) (i n : nat) : Async unit :=
  match rest with
  | [] => ret tt
  | base :: rest' =>
      img <- loadP5Image (imageUrl base) ;;
      update (fun g => set_items (items g ++ [mkItem base img 0 0 0 0]) g) ;;;
      update (setStatus ("loading thumbnails" ++ ellipsis ++ " "
                           ++ decimal (i + 1) ++ "/" ++ decimal n)) ;;;
      preloadLoop rest' (S i) n
  end.

(** Lines 136-148: [items] is reset, then filled tile by tile. *)
Definition preload (picked : list DetailRecord) : Async unit :=
  update (set_items []) ;;;
  preloadLoop picked 0 (length picked).

(** The [try] statement of lines 104-157. *)
Definition searchMet_try (query : string) : Async unit :=
  try_finally
    (try_catch
       (res <- await (fetchSearch query) ;;
        (if negb (ok res) then throw ("search http " ++ decimalN (status res))
         else ret tt) ;;;
        json <- await (fun net => (json res, net)) ;;
        let ids := match objectIDs json with Some a => a | None => [] end in
        if (length ids =? 0)%nat then
          update (setStatus ("no matches for " ++ dq ++ query ++ dq ++ ".")) ;;;
          update (set_loading false)
        else
          update (setStatus ("found " ++ decimal (length ids)
                               ++ " ids. fetching details + thumbnails" ++ ellipsis)) ;;;
          picked <- fetchLoop ids [] ;;
          if (length picked =? 0)%nat then
            update (setStatus
              "found stuff but none had usable images. try another keyword.") ;;;
            update (set_loading false)
          else
            preload picked ;;;
            update (fun g => set_items (layoutGrid canvasWidth canvasHeight (items g)) g) ;;;
            g <- get ;;
            update (setStatus ("loaded " ++ decimal (length (items g))
                                 ++ " images for " ++ dq ++ query ++ dq
                                 ++ ". hover for info, click to open met page.")))
       (fun message =>
          update (set_errMsg (Some message)) ;;;
          update (setStatus ("error: " ++ message))))
    (update (set_loading false)).

Definition searchMet (query : string) : Async unit :=
  update (set_loading true) ;;;
  update (set_errMsg None) ;;;
  update (set_items []) ;;;
  update (setStatus ("searching met for " ++ dq ++ query ++ dq ++ ellipsis)) ;;;
  searchMet_try query.

(** ** Vocabulary of the statements about the pipeline *)

(** [fetchObject id], started in world [net], returns [o] and leaves the
    world [net'], whatever the globals. *)
Definition fetched (id : value) (net : World) (o : option DetailRecord)
    (net' : World) : Prop :=
  forall g, outcome (fetchObject id g net) = Ok o /\
            world (fetchObject id g net) = net'.

(** The identifiers tried one after the other from world [net], each with
    what [fetchObject] returned for it. *)
Inductive attempts : World -> list (value * option DetailRecord) -> World -> Prop :=
  | attempts_nil net : attempts net [] net
  | attempts_cons id o net net1 rest net' :
      fetched id net o net1 ->
      attempts net1 rest net' ->
      attempts net ((id, o) :: rest) net'.

(** Tiles pushed one after the other from world [net]: each carries what
    [loadImage] produced for its [imageUrl] (the image, or nothing when the
    load failed) and zero bounds. *)
Inductive loaded : World -> list (Item Image) -> World -> Prop :=
  | loaded_nil net : loaded net [] net
  | loaded_cons t net net1 rest net' :
      loadImage (imageUrl (base t)) net = (img t, net1) ->
      x t = 0 -> y t = 0 -> w t = 0 -> h t = 0 ->
      loaded net1 rest net' ->
      loaded net (t :: rest) net'.

(** The search step fails with [message]: the request is rejected, the
    response is not ok, or its body cannot be read. *)
Definition search_fails (query : string) (net : World) (message : string) : Prop :=
  match fst (fetchSearch query net) with
  | Throw m => message = m
  | Ok res =>
      if ok res then json res = Throw message
      else message = "search http " ++ decimalN (status res)
  end.

(** The globals with which the [try] statement of [searchMet] starts. *)
Definition searching (query : string) : Globals Image :=
  mkGlobals Image true None []
    ("searching met for " ++ dq ++ query ++ dq ++ ellipsis).

(** The globals left by the [catch] and [finally] clauses after an error
    with [message] thrown before any tile was pushed. *)
Definition failed (message : string) : Globals Image :=
  mkGlobals Image false (Some message) [] ("error: " ++ message).

(** The globals left by the early return of lines 114-118. *)
Definition no_matches (query : string) : Globals Image :=
  mkGlobals Image false None [] ("no matches for " ++ dq ++ query ++ dq ++ ".").

End SearchMet.

(** [sub] occurs in [s]. *)
Definition occurs_in (sub s : string) : Prop :=
  exists pre post : string, s = (pre ++ sub ++ post)%string.

(** A tile as pushed by the preload loop, not yet laid out. *)
Definition zero_bounds {Image : Type} (t : Item Image) : Prop :=
  x t == 0 /\ y t == 0 /\ w t == 0 /\ h t == 0.

(** ** layoutGrid in the code's arithmetic: IEEE 754 binary64

    A JavaScript number is a double.  [SpecFloat] gives the operations of
    binary64 (53 bits of precision, round to nearest, ties to even) on
    sign, mantissa and exponent; they are evaluated, not axiomatised. *)

Definition double : Type := spec_float.

Definition fadd : double -> double -> double := SFadd 53 1024.
Definition fsub : double -> double -> double := SFsub 53 1024.
Definition fmul : double -> double -> double := SFmul 53 1024.
Definition fdiv : double -> double -> double := SFdiv 53 1024.
Definition fltb : double -> double -> bool := SFltb.
Definition fleb : double -> double -> bool := SFleb.

(** The double of an integer literal or of an array length or index. *)
Definition dbl (n : Z) : double := binary_normalize 53 1024 n 0 false.

(** The integer mantissa of a finite double, with its sign. *)
Definition signed (s : bool) (m : positive) : Z := if s then Zneg m else Zpos m.

(** [Math.ceil] and [Math.floor]: a double with a non-negative exponent is
    an integer already. *)
Definition ceil64 (f : double) : double :=
  match f with
  | S754_finite s m (Zneg p) =>
      binary_normalize 53 1024 (- ((- signed s m) / Z.pow_pos 2 p))%Z 0 s
  | _ => f
  end.

Definition floor64 (f : double) : double :=
  match f with
  | S754_finite s m (Zneg p) =>
      binary_normalize 53 1024 (signed s m / Z.pow_pos 2 p)%Z 0 s
  | _ => f
  end.

(** [a % b] on doubles: the remainder is exact and has the sign of [a]. *)
Definition rem64 (a b : double) : double :=
  match a, b with
  | S754_nan, _ | _, S754_nan => S754_nan
  | S754_infinity _, _ => S754_nan
  | _, S754_zero _ => S754_nan
  | _, S754_infinity _ => a
  | S754_zero _, _ => a
  | S754_finite sa ma ea, S754_finite sb mb eb =>
      let e := Z.min ea eb in
      let na := (Zpos ma * 2 ^ (ea - e))%Z in
      let nb := (Zpos mb * 2 ^ (eb - e))%Z in
      binary_normalize 53 1024 (if sa then - (na mod nb) else na mod nb)%Z e sa
  end.

(** The rational that a finite double stands for. *)
Definition valueOf (f : double) : option Q :=
  match f with
  | S754_zero _ => Some 0
  | S754_finite s m (Zneg p) => Some (Qmake (signed s m) (Pos.pow 2 p))
  | S754_finite s m e => Some (inject_Z (signed s m * 2 ^ e))
  | S754_infinity _ | S754_nan => None
  end.

Definition GRID_COLS64 : double := dbl 6.
Definition PAD64 : double := dbl 20.
Definition GAP64 : double := dbl 10.
Definition canvasWidth64 : double := dbl 900.
Definition canvasHeight64 : double := dbl 560.

Section Binary64.
Context {Image : Type}.

(** An element of [items] with its bounds as the doubles the code stores. *)
Record Item64 : Type := mkItem64 {
  base64 : DetailRecord;
  img64 : option Image;
  x64 : double;
  y64 : double;
  w64 : double;
  h64 : double
}.

(** layoutGrid (lines 195-215), every operation rounded to a double. *)
Definition layoutGrid64 (width height : double) (items : list Item64)
  : list Item64 :=
  let cols := GRID_COLS64 in
  let rows := ceil64 (fdiv (dbl (Z.of_nat (length items))) cols) in
  let usableW := fsub width (fmul PAD64 (dbl 2)) in
  let usableH := fsub height (fmul PAD64 (dbl 2)) in
  let tileW := fdiv (fsub usableW (fmul GAP64 (fsub cols (dbl 1)))) cols in
  let tileH := fdiv (fsub usableH (fmul GAP64 (fsub rows (dbl 1)))) rows in
  imap (fun i it =>
          let col := rem64 (dbl (Z.of_nat i)) cols in
          let row := floor64 (fdiv (dbl (Z.of_nat i)) cols) in
          mkItem64 (base64 it) (img64 it)
                   (fadd PAD64 (fmul col (fadd tileW GAP64)))
                   (fadd PAD64 (fmul row (fadd tileH GAP64)))
                   tileW
                   tileH) items.

(** A rectangle of positive size inside the 900 x 560 canvas minus the outer
    padding, its far edges taken as the code computes them ([x + w] and
    [y + h] rounded, as in line 219) and also exactly. *)
Definition within_canvas64b (t : Item64) : bool :=
  fltb (dbl 0) (w64 t) && fltb (dbl 0) (h64 t)
  && fleb PAD64 (x64 t) && fleb PAD64 (y64 t)
  && fleb (fadd (x64 t) (w64 t)) (fsub canvasWidth64 PAD64)
  && fleb (fadd (y64 t) (h64 t)) (fsub canvasHeight64 PAD64)
  && match valueOf (x64 t), valueOf (y64 t), valueOf (w64 t), valueOf (h64 t) with
     | Some qx, Some qy, Some qw, Some qh =>
         Qle_bool (qx + qw) (canvasWidth - PAD)
         && Qle_bool (qy + qh) (canvasHeight - PAD)
     | _, _, _, _ => false
     end.

Definition within_canvas64 (t : Item64) : Prop :=
  fltb (dbl 0) (w64 t) = true /\ fltb (dbl 0) (h64 t) = true /\
  fleb PAD64 (x64 t) = true /\ fleb PAD64 (y64 t) = true /\
  fleb (fadd (x64 t) (w64 t)) (fsub canvasWidth64 PAD64) = true /\
  fleb (fadd (y64 t) (h64 t)) (fsub canvasHeight64 PAD64) = true /\
  exists qx qy qw qh : Q,
    valueOf (x64 t) = Some qx /\ valueOf (y64 t) = Some qy /\
    valueOf (w64 t) = Some qw /\ valueOf (h64 t) = Some qh /\
    qx + qw <= canvasWidth - PAD /\ qy + qh <= canvasHeight - PAD.

End Binary64.

Arguments Item64 : clear implicits.

(** ** draw, drawMsg and drawTooltip (lines 44-75, 86-91, 226-258)

    A frame is the list of p5 drawing calls that [draw] makes, in order. *)

(** [a > b] on numbers, and p5's [max] of two numbers. *)
Definition gt (a b : Q) : bool := negb (Qle_bool a b).
Definition max2 (a b : Q) : Q := if Qle_bool a b then b else a.

Section Drawing.
Context {Image : Type}.

(** p5's [textWidth], at the text size and font in force when the tooltip
    is measured. *)
Variable textWidth : value -> Q.

Inductive Cmd : Type :=
  | Background (gray : Q)
  | NoStroke
  | Fill (gray alpha : Q)
  | TextSize (size : Q)
  | Text (str : value) (tx ty : Q)
  | DrawImage (i : Image) (ix iy iw ih : Q)
  | Rect (rx ry rw rh : Q) (radius : option Q).

(** drawMsg (lines 86-91) *)
Definition drawMsg (msg : string) : list Cmd :=
  [NoStroke; Fill 0 180; TextSize 16; Text (VStr msg) 24 40].

(** The two lines of the tooltip (lines 227-231). *)
Definition tooltipLines (it : Item Image) : list value :=
  [title (base it); artist (base it)].

(** The rectangle of the tooltip (lines 234-246): [(x, y, boxW, boxH)]. *)
Definition tooltipBox (it : Item Image) (mouseX mouseY : Q) : Q * Q * Q * Q :=
  let lines := tooltipLines it in
  let padding := 8 in
  let maxW := fold_left (fun acc line => max2 acc (textWidth line)) lines 0 in
  let boxW := maxW + padding * 2 in
  let boxH := num (length lines) * 16 + padding * 2 in
  let x0 := mouseX + 12 in
  let y0 := mouseY + 12 in
  let x1 := if gt (x0 + boxW) canvasWidth then canvasWidth - boxW - 8 else x0 in
  let y1 := if gt (y0 + boxH) canvasHeight then canvasHeight - boxH - 8 else y0 in
  (x1, y1, boxW, boxH).

(** The loop of lines 254-257. *)
Fixpoint textLines (lines : list value) (tx ty : Q) : list Cmd :=
  match lines with
  | [] => []
  | line :: rest => Text line tx ty :: textLines rest tx (ty + 16)
  end.

(** drawTooltip (lines 226-258) *)
Definition drawTooltip (it : Item Image) (mouseX mouseY : Q) : list Cmd :=
  let '(bx, by_, boxW, boxH) := tooltipBox it mouseX mouseY in
  let padding := 8 in
  [TextSize 12; NoStroke; Fill 255 245; Rect bx by_ boxW boxH (Some 8); Fill 0 220]
  ++ textLines (tooltipLines it) (bx + padding) (by_ + padding + 12).

(** The body of the loop of lines 61-70. *)
Definition drawTile (it : Item Image) : list Cmd :=
  match img it with
  | Some i => [DrawImage i (x it) (y it) (w it) (h it)]
  | None => [NoStroke; Fill 0 25; Rect (x it) (y it) (w it) (h it) None]
  end.

(** draw (lines 44-75) *)
Definition draw (g : Globals Image) (mouseX mouseY : Q) : list Cmd :=
  Background 255 ::
  if loading g then drawMsg ("loading" ++ ellipsis)
  else
    match errMsg g with
    | Some (String c m) => drawMsg ("error: " ++ String c m)
    | Some EmptyString | None =>
        if (length (items g) =? 0)%nat
        then drawMsg "no images yet. try another keyword."
        else
          flat_map drawTile (items g)
          ++ match getHoveredItem (items g) mouseX mouseY with
             | Some hover => drawTooltip hover mouseX mouseY
             | None => []
             end
    end.

(** The rectangle of a tile, [(x, y, w, h)]. *)
Definition bounds (it : Item Image) : Q * Q * Q * Q :=
  (x it, y it, w it, h it).

(** What a frame puts on the canvas, apart from text: an image in a
    rectangle, or a rectangle filled with the fill colour in force (gray,
    alpha) and with the given corner radius. *)
Inductive Paint : Type :=
  | PaintImage (i : Image) (r : Q * Q * Q * Q)
  | PaintRect (r : Q * Q * Q * Q) (colour : Q * Q) (radius : option Q).

(** The paints of a list of calls, the fill colour being [colour] before
    the first of them. *)
Fixpoint render (colour : Q * Q) (cmds : list Cmd) : list Paint :=
  match cmds with
  | [] => []
  | Fill gray alpha :: rest => render (gray, alpha) rest
  | DrawImage i ix iy iw ih :: rest =>
      PaintImage i (ix, iy, iw, ih) :: render colour rest
  | Rect rx ry rw rh radius :: rest =>
      PaintRect (rx, ry, rw, rh) colour radius :: render colour rest
  | _ :: rest => render colour rest
  end.

(** How a tile is to appear: its image in its bounds, or, when the image is
    absent, a square-cornered rectangle in its bounds filled with (0, 25). *)
Definition tilePaint (it : Item Image) : Paint :=
  match img it with
  | Some i => PaintImage i (bounds it)
  | None => PaintRect (bounds it) (0, 25) None
  end.

End Drawing.

(** ** The handlers installed by setup (lines 25-41) *)

Section Handlers.
Context `{Collaborators}.
Local Open Scope string_scope.

(** [String.prototype.trim], of the platform. *)
Variable trim : string -> string.

(** The click handler of the "go" button (lines 26-29), on the text of the
    query field. *)
Definition goClick (fieldValue : string) : Async unit :=
  let q := trim fieldValue in
  match q with
  | String _ _ => searchMet q
  | EmptyString => ret tt
  end.

(** The search started by [setup] itself (line 41). *)
Definition setupSearch (fieldValue : string) : Async unit :=
  searchMet (trim fieldValue).

End Handlers.

(** ** The globals at the milestones of a search *)

Section Milestones.
Context `{Collaborators}.
Local Open Scope string_scope.

(** After line 120, [n] identifiers having been found. *)
Definition found (n : nat) : Globals Image :=
  mkGlobals Image true None []
    ("found " ++ decimal n ++ " ids. fetching details + thumbnails" ++ ellipsis).

(** After the early return of lines 129-133. *)
Definition none_usable : Globals Image :=
  mkGlobals Image false None []
    "found stuff but none had usable images. try another keyword.".

(** After line 151 and the [finally] clause, [tiles] being the tiles pushed
    by the preload loop. *)
Definition laid_out (query : string) (tiles : list (Item Image)) : Globals Image :=
  mkGlobals Image false None (layoutGrid canvasWidth canvasHeight tiles)
    ("loaded " ++ decimal (length tiles) ++ " images for " ++ dq ++ query ++ dq
       ++ ". hover for info, click to open met page.").

(** What is on display at a suspension point of a search that ends with
    the tiles [tiles]. *)
Definition searching_screen (tiles : list (Item Image)) (g' : Globals Image) : Prop :=
  loading g' = true /\ errMsg g' = None /\
  Forall zero_bounds (items g') /\
  (length (items g') <= length tiles)%nat.

(** The globals in which a search ends: the early returns or the grid. *)
Definition settled (query : string) (ids : list value)
    (tiles : list (Item Image)) : Globals Image :=
  match ids, tiles with
  | [], _ => no_matches query
  | _ :: _, [] => none_usable
  | _ :: _, _ :: _ => laid_out query tiles
  end.

End Milestones.

(** A tile as pushed by the preload loop when its image has loaded. *)
Definition withImage (id : Q) : Item string :=
  mkItem (mkDetail (VNum id) (VStr "Cat") (VStr "(unknown artist)")
            (VStr EmptyString) (VStr "img/1.jpg")) (Some "img/1.jpg"%string)
    0 0 0 0.

(** A text measure for the examples: 7 units per character of a string. *)
Definition monoWidth (v : value) : Q :=
  match v with
  | VStr s => 7 * num (String.length s)
  | _ => 0
  end.

(** ** A scripted collaborator, for the examples

    The world counts the requests made.  The query "cat" finds the
    identifiers 1 to 4; "void" finds nothing; "boom" is answered with status
    500; any other query is rejected.  Object 2 is answered with status 404,
    objects 1, 3 and 4 have an image, and the image of object 3 fails to
    load. *)

Definition scriptedIds : list value := [VNum 1; VNum 2; VNum 3; VNum 4].

Definition scriptedSearch (query : string) (net : nat)
  : Outcome (Response SearchJson) * nat :=
  (if String.eqb query "cat"
   then Ok (mkResponse true 200 (Ok (mkSearchJson (Some scriptedIds))))
   else if String.eqb query "void"
   then Ok (mkResponse true 200 (Ok (mkSearchJson None)))
   else if String.eqb query "boom"
   then Ok (mkResponse false 500 (Throw "Unexpected token"))
   else Throw "Failed to fetch",
   S net).

Definition scriptedObject (id : value) (image : string) : value :=
  VObj [("objectID"%string, id);
        ("title"%string, VStr "Cat");
        ("artistDisplayName"%string, VStr EmptyString);
        ("primaryImageSmall"%string, VStr image)].

Definition scriptedDetail (id : value) (net : nat)
  : Outcome (Response value) * nat :=
  (match id with
   | VNum q =>
       if Qeq_bool q 1
       then Ok (mkResponse true 200 (Ok (scriptedObject id "img/1.jpg")))
       else if Qeq_bool q 2
       then Ok (mkResponse false 404 (Throw "Unexpected token"))
       else if Qeq_bool q 3
       then Ok (mkResponse true 200 (Ok (scriptedObject id "img/3.jpg")))
       else if Qeq_bool q 4
       then Ok (mkResponse true 200 (Ok (scriptedObject id "img/4.jpg")))
       else Throw "Failed to fetch"
   | _ => Throw "Failed to fetch"
   end,
   S net).

Definition scriptedImage (url : value) (net : nat) : option string * nat :=
  (match url with
   | VStr s => if String.eqb s "img/3.jpg" then None else Some s
   | _ => None
   end,
   S net).

Definition scripted : Collaborators :=
  {| Image := string;
     World := nat;
     fetchSearch := scriptedSearch;
     fetchDetail := scriptedDetail;
     loadImage := scriptedImage |}.

(** The same collaborator with the object endpoint down: every detail
    request is rejected. *)
Definition scriptedOffline : Collaborators :=
  {| Image := string;
     World := nat;
     fetchSearch := scriptedSearch;
     fetchDetail := fun _ net => (Throw "Failed to fetch"%string, S net);
     loadImage := scriptedImage |}.

(** The globals before the first search. *)
Definition idle : Globals string := mkGlobals string false None [] EmptyString.

(** A tile as pushed by the preload loop, with the given identifier. *)
Definition pushed (id : Q) : Item string :=
  mkItem (mkDetail (VNum id) (VStr "Cat") (VStr "(unknown artist)")
            (VStr EmptyString) (VStr "img.jpg")) None 0 0 0 0.

Section LayoutFacts.
Context {Image : Type}.
Implicit Types (items : list (@Item Image)).

Lemma Qfloor_div_pos (a : Z) (p : positive) :
  Qfloor (inject_Z a / inject_Z (Zpos p)) = (a / Zpos p)%Z.
Proof.
  unfold Qdiv, Qinv, Qmult, inject_Z, Qfloor. cbn.
  now rewrite Z.mul_1_r.
Qed.

Lemma Qceiling_div_pos (a : Z) (p : positive) :
  Qceiling (inject_Z a / inject_Z (Zpos p)) = (- ((- a) / Zpos p))%Z.
Proof.
  unfold Qceiling. f_equal.
  transitivity (Qfloor (inject_Z (- a) / inject_Z (Zpos p))).
  - apply Qfloor_comp. rewrite inject_Z_opp. field. discriminate.
  - apply Qfloor_div_pos.
Qed.

Lemma floor_num_cols (i : nat) :
  floor (num i / GRID_COLS) = inject_Z (Z.of_nat i / 6).
Proof. unfold floor, num, GRID_COLS. now rewrite (Qfloor_div_pos _ 6). Qed.

Lemma rem_num_cols (i : nat) :
  rem (num i) GRID_COLS == inject_Z (Z.of_nat i mod 6).
Proof.
  unfold rem, trunc, num, GRID_COLS.
  replace (Qle_bool 0 (inject_Z (Z.of_nat i) / 6)) with true.
  - rewrite (Qfloor_div_pos _ 6).
    rewrite (Z.mod_eq (Z.of_nat i) 6) by lia.
    unfold Zminus. rewrite inject_Z_plus, inject_Z_opp, inject_Z_mult. ring.
  - symmetry. apply Qle_bool_iff.
    apply Qle_shift_div_l; [reflexivity|].
    rewrite Qmult_0_l. change 0 with (inject_Z 0). rewrite <- Zle_Qle. lia.
Qed.

Lemma ceil_num_cols (n : nat) :
  ceil (num n / GRID_COLS) = inject_Z ((Z.of_nat n + 5) / 6).
Proof.
  unfold ceil, num, GRID_COLS. rewrite (Qceiling_div_pos _ 6). f_equal.
  pose proof (Z.div_mod (- Z.of_nat n) 6 ltac:(lia)).
  pose proof (Z.mod_pos_bound (- Z.of_nat n) 6 ltac:(lia)).
  pose proof (Z.div_mod (Z.of_nat n + 5) 6 ltac:(lia)).
  pose proof (Z.mod_pos_bound (Z.of_nat n + 5) 6 ltac:(lia)).
  lia.
Qed.

(** A tile of the laid-out list is the tile of the input at the same index
    with the four positional fields overwritten. *)
Lemma layoutGrid_lookup (width height : Q) items (i : nat) :
  layoutGrid width height items !! i =
  (fun it =>
     let rows := ceil (num (length items) / GRID_COLS) in
     let tileW := (width - PAD * 2 - GAP * (GRID_COLS - 1)) / GRID_COLS in
     let tileH := (height - PAD * 2 - GAP * (rows - 1)) / rows in
     mkItem (base it) (img it)
            (PAD + rem (num i) GRID_COLS * (tileW + GAP))
            (PAD + floor (num i / GRID_COLS) * (tileH + GAP))
            tileW tileH) <$> items !! i.
Proof. unfold layoutGrid. now rewrite list_lookup_imap. Qed.

Lemma layoutGrid_length (width height : Q) items :
  length (layoutGrid width height items) = length items.
Proof. unfold layoutGrid. apply length_imap. Qed.

Lemma rowsZ_bounds (count : nat) :
  (Z.of_nat count <= 6 * rowsZ count < Z.of_nat count + 6)%Z.
Proof.
  unfold rowsZ.
  pose proof (Z.div_mod (Z.of_nat count + 5) 6 ltac:(lia)).
  pose proof (Z.mod_pos_bound (Z.of_nat count + 5) 6 ltac:(lia)).
  lia.
Qed.

Lemma row_lt_rowsZ (count i : nat) :
  (i < count)%nat -> (0 <= Z.of_nat i / 6 < rowsZ count)%Z.
Proof.
  intros Hi. pose proof (rowsZ_bounds count).
  pose proof (Z.div_mod (Z.of_nat i) 6 ltac:(lia)).
  pose proof (Z.mod_pos_bound (Z.of_nat i) 6 ltac:(lia)).
  split; [apply Z.div_pos; lia | lia].
Qed.

(** The fields of a laid-out tile, with the integer parts computed. *)
Lemma layoutGrid_tile (width height : Q) items (i : nat) (tile : Item Image) :
  layoutGrid width height items !! i = Some tile ->
  let tileW := (width - 40 - 50) / 6 in
  let tileH := (height - 40 - 10 * (inject_Z (rowsZ (length items)) - 1))
               / inject_Z (rowsZ (length items)) in
  (i < length items)%nat /\
  x tile == 20 + inject_Z (Z.of_nat i mod 6) * (tileW + 10) /\
  y tile == 20 + inject_Z (Z.of_nat i / 6) * (tileH + 10) /\
  w tile == tileW /\
  h tile == tileH.
Proof.
  rewrite layoutGrid_lookup. intros Hl.
  destruct (items !! i) as [it|] eqn:Hi; [|discriminate].
  apply lookup_lt_Some in Hi.
  injection Hl as <-. cbn [x y w h].
  rewrite rem_num_cols, floor_num_cols, ceil_num_cols.
  fold (rowsZ (length items)).
  unfold PAD, GAP, GRID_COLS.
  split; [exact Hi|].
  repeat split; reflexivity.
Qed.

(** C1. For a non-empty tile list, [layoutGrid] gives tile [i] the rectangle
    x = outerPadding + (i mod columns) * (tileWidth + gap),
    y = outerPadding + floor (i / columns) * (tileHeight + gap), of width
    tileWidth = (canvasWidth - 2 * outerPadding - gap * (columns - 1)) / columns
    and height
    tileHeight = (canvasHeight - 2 * outerPadding - gap * (rows - 1)) / rows,
    where rows = ceil (count / columns); the width and height are the same
    for every tile, also in a partial last row.  For 18 tiles on the
    900 x 560 canvas there are 3 rows, each holding 6 tiles, and every tile
    is 135 wide and 500/3 high. *)
Theorem layoutGrid_rectangles (width height : Q) items (i : nat) :
  (i < length items)%nat ->
  let count := length items in
  let rows := ceil (num count / GRID_COLS) in
  let tileWidth := (width - 2 * PAD - GAP * (GRID_COLS - 1)) / GRID_COLS in
  let tileHeight := (height - 2 * PAD - GAP * (rows - 1)) / rows in
  (rows == inject_Z (rowsZ count) /\
   (Z.of_nat count <= 6 * rowsZ count < Z.of_nat count + 6)%Z) /\
  (exists it tile,
     items !! i = Some it /\
     layoutGrid width height items !! i = Some tile /\
     base tile = base it /\ img tile = img it /\
     x tile == PAD + inject_Z (Z.of_nat i mod 6) * (tileWidth + GAP) /\
     y tile == PAD + inject_Z (Z.of_nat i / 6) * (tileHeight + GAP) /\
     w tile == tileWidth /\
     h tile == tileHeight) /\
  (count = 18%nat ->
   rowsZ count = 3%Z /\
   exists tile,
     layoutGrid canvasWidth canvasHeight items !! i = Some tile /\
     w tile == 135 /\ h tile == 500 # 3 /\
     (Z.of_nat i / 6 < 3)%Z /\
     length (List.filter (fun t => Qeq_bool (y t) (y tile))
               (layoutGrid canvasWidth canvasHeight items)) = 6%nat).
Proof.
  intros Hi count rows tileWidth tileHeight.
  split; [|split].
  - split; [|apply rowsZ_bounds].
    unfold rows. now rewrite ceil_num_cols.
  - destruct (lookup_lt_is_Some_2 items i Hi) as [it Hit].
    exists it. eexists. rewrite layoutGrid_lookup, Hit.
    do 2 (split; [reflexivity|]). cbn [base img x y w h].
    do 2 (split; [reflexivity|]).
    split; [|split; [|split]].
    + now rewrite rem_num_cols.
    + now rewrite floor_num_cols.
    + unfold tileWidth. apply Qdiv_comp; [clear; ring|reflexivity].
    + unfold tileHeight, rows, count. apply Qdiv_comp; [clear; ring|reflexivity].
  - intros H18. unfold count in *. split; [now rewrite H18|].
    do 19 (destruct items as [|? items]; try discriminate H18).
    clear H18.
    do 18 (destruct i as [|i];
           [eexists; split; [reflexivity|]; cbn [w h y];
            repeat split; vm_compute; congruence |]).
    cbn in Hi. lia.
Qed.

Lemma inject_Z_bounds (a lo hi : Z) :
  (lo <= a <= hi)%Z -> inject_Z lo <= inject_Z a <= inject_Z hi.
Proof. intros [? ?]. split; now rewrite <- Zle_Qle. Qed.

Lemma within_canvas64_reflect (t : Item64 Image) :
  within_canvas64b t = true -> within_canvas64 t.
Proof.
  unfold within_canvas64b, within_canvas64.
  rewrite !andb_true_iff.
  intros [[[[[[Hw Hh] Hx] Hy] Hxw] Hyh] Hq].
  repeat (split; [assumption|]).
  destruct (valueOf (x64 t)) as [qx|]; [|discriminate].
  destruct (valueOf (y64 t)) as [qy|]; [|discriminate].
  destruct (valueOf (w64 t)) as [qw|]; [|discriminate].
  destruct (valueOf (h64 t)) as [qh|]; [|discriminate].
  apply andb_true_iff in Hq. destruct Hq as [H1 H2].
  apply Qle_bool_iff in H1, H2.
  exists qx, qy, qw, qh. now repeat split.
Qed.

Lemma within_canvas64_all (tiles : list (Item64 Image)) :
  forallb within_canvas64b tiles = true -> Forall within_canvas64 tiles.
Proof.
  induction tiles as [|t rest IH]; cbn; [constructor|].
  rewrite andb_true_iff. intros [Ht Hrest].
  constructor; [now apply within_canvas64_reflect|now apply IH].
Qed.

(** C2, for the tile counts the program lays out. For every count from 1 to
    [MAX_ITEMS] (18) on the 900 x 560 canvas, [layoutGrid], evaluated in
    the doubles of the code, produces exactly as many rectangles as tiles,
    each of positive width and height and inside
    [PAD, canvasWidth - PAD] x [PAD, canvasHeight - PAD], the far edges
    being taken as the code's sums [x + w], [y + h] or exactly. *)
Theorem layoutGrid64_within_canvas (items : list (Item64 Image)) :
  (1 <= length items <= MAX_ITEMS)%nat ->
  length (layoutGrid64 canvasWidth64 canvasHeight64 items) = length items /\
  Forall within_canvas64 (layoutGrid64 canvasWidth64 canvasHeight64 items).
Proof.
  intros [Hlo Hhi]. split; [apply length_imap|].
  do 19 (destruct items as [|? items];
         [first [ cbn in Hlo; lia
                | apply within_canvas64_all; vm_compute; reflexivity ]|]).
  cbn in Hhi. unfold MAX_ITEMS in Hhi. lia.
Qed.

(** Two cells of a row (or of a column) whose pitch is the cell size plus a
    gap of 10 share no point. *)
Lemma cells_apart (a b : Z) (size p : Q) :
  (a < b)%Z ->
  20 + inject_Z a * (size + 10) <= p ->
  p <= 20 + inject_Z a * (size + 10) + size ->
  20 + inject_Z b * (size + 10) <= p ->
  False.
Proof.
  intros Hab H1 H2 H3.
  assert (Hd : inject_Z a + 1 <= inject_Z b).
  { change 1 with (inject_Z 1) at 1.
    rewrite <- inject_Z_plus, <- Zle_Qle. lia. }
  set (qa := inject_Z a) in *. set (qb := inject_Z b) in *.
  clearbody qa qb.
  assert (0 <= (qb - qa - 1) * (size + 10))
    by (apply Qmult_le_0_compat; lra).
  lra.
Qed.

(** C3. Tiles never overlap: the closed rectangles of two distinct tiles of
    one [layoutGrid] call have no point in common. *)
Theorem layoutGrid_no_overlap (width height : Q) items (i j : nat)
    (ti tj : Item Image) (px py : Q) :
  i <> j ->
  layoutGrid width height items !! i = Some ti ->
  layoutGrid width height items !! j = Some tj ->
  ~ (inside px py ti /\ inside px py tj).
Proof.
  intros Hij Hi Hj [[[Hxi1 Hxi2] [Hyi1 Hyi2]] [[Hxj1 Hxj2] [Hyj1 Hyj2]]].
  apply layoutGrid_tile in Hi, Hj. cbv zeta in Hi, Hj.
  destruct Hi as (_ & Hxi & Hyi & Hwi & Hhi).
  destruct Hj as (_ & Hxj & Hyj & Hwj & Hhj).
  rewrite Hxi in Hxi1, Hxi2. rewrite Hwi in Hxi2.
  rewrite Hxj in Hxj1, Hxj2. rewrite Hwj in Hxj2.
  rewrite Hyi in Hyi1, Hyi2. rewrite Hhi in Hyi2.
  rewrite Hyj in Hyj1, Hyj2. rewrite Hhj in Hyj2.
  pose proof (Z.div_mod (Z.of_nat i) 6 ltac:(lia)).
  pose proof (Z.div_mod (Z.of_nat j) 6 ltac:(lia)).
  destruct (Z.lt_total (Z.of_nat i mod 6) (Z.of_nat j mod 6)) as [Hc|[Hc|Hc]].
  - exact (cells_apart _ _ _ _ Hc Hxi1 Hxi2 Hxj1).
  - destruct (Z.lt_total (Z.of_nat i / 6) (Z.of_nat j / 6)) as [Hr|[Hr|Hr]].
    + exact (cells_apart _ _ _ _ Hr Hyi1 Hyi2 Hyj1).
    + lia.
    + exact (cells_apart _ _ _ _ Hr Hyj1 Hyj2 Hyi1).
  - exact (cells_apart _ _ _ _ Hc Hxj1 Hxj2 Hxi1).
Qed.

(** A tile of a grid laid out on the 900 x 560 canvas, by column [c], row
    [r] and row pitch [u]. *)
Lemma layoutGrid_canvas_tile items (i : nat) (tile : Item Image) :
  layoutGrid canvasWidth canvasHeight items !! i = Some tile ->
  exists (c r : Z) (u : Q),
    (0 <= c <= 5)%Z /\ (0 <= r < rowsZ (length items))%Z /\
    u == 530 / inject_Z (rowsZ (length items)) /\ 0 < u /\
    u * inject_Z (rowsZ (length items)) == 530 /\
    x tile == 20 + inject_Z c * 145 /\ w tile == 135 /\
    y tile == 20 + inject_Z r * u /\ h tile == u - 10.
Proof.
  intros Hl. apply layoutGrid_tile in Hl. cbv zeta in Hl.
  destruct Hl as (Hi & Hx & Hy & Hw & Hh).
  pose proof (row_lt_rowsZ (length items) i Hi) as Hr.
  pose proof (Z.mod_pos_bound (Z.of_nat i) 6 ltac:(lia)) as Hc.
  set (R := rowsZ (length items)) in *.
  assert (HRq : 1 <= inject_Z R).
  { change 1 with (inject_Z 1). rewrite <- Zle_Qle. lia. }
  exists (Z.of_nat i mod 6)%Z, (Z.of_nat i / 6)%Z, (530 / inject_Z R).
  split; [lia|]. split; [lia|]. split; [reflexivity|].
  split; [apply Qlt_shift_div_l; lra|].
  split; [field; lra|].
  unfold canvasWidth, canvasHeight in *.
  split; [rewrite Hx; apply Qplus_comp; [reflexivity|];
          apply Qmult_comp; reflexivity|].
  split; [rewrite Hw; reflexivity|].
  split; [rewrite Hy; apply Qplus_comp; [reflexivity|];
          apply Qmult_comp; [reflexivity|]; field; lra|].
  rewrite Hh. field. lra.
Qed.

(** No tile of a laid-out grid contains a point of the padding or of a gap. *)
Lemma padding_gap_outside items (tile : Item Image) (px py : Q) :
  tile ∈ layoutGrid canvasWidth canvasHeight items ->
  in_padding_or_gap (length items) px py ->
  ~ inside px py tile.
Proof.
  intros Hin Hreg [[Hx1 Hx2] [Hy1 Hy2]].
  apply list_elem_of_lookup in Hin. destruct Hin as [i Hl].
  apply layoutGrid_canvas_tile in Hl.
  destruct Hl as (c & r & u & Hc & Hr & Hu' & Hu & HuR & Hx & Hw & Hy & Hh).
  rewrite Hx in Hx1, Hx2. rewrite Hw in Hx2.
  rewrite Hy in Hy1, Hy2. rewrite Hh in Hy2.
  set (R := rowsZ (length items)) in *.
  assert (Hcq : 0 <= inject_Z c <= 5) by (apply (inject_Z_bounds c 0 5); lia).
  assert (Hrq : 0 <= inject_Z r /\ inject_Z r + 1 <= inject_Z R).
  { split.
    - change 0 with (inject_Z 0). rewrite <- Zle_Qle. lia.
    - change 1 with (inject_Z 1) at 1.
      rewrite <- inject_Z_plus, <- Zle_Qle. lia. }
  assert (0 <= inject_Z r * u) by (apply Qmult_le_0_compat; lra).
  assert (0 <= (inject_Z R - (inject_Z r + 1)) * u)
    by (apply Qmult_le_0_compat; lra).
  unfold in_padding_or_gap, PAD, GAP, canvasWidth, canvasHeight in Hreg.
  cbv zeta in Hreg. fold R in Hreg.
  destruct Hreg as [Hp|[Hp|[Hp|[Hp|[[k [Hk1 Hk2]]|[k [Hk1 Hk2]]]]]]];
    try lra.
  - destruct (Z.le_gt_cases c k) as [Hle|Hgt].
    + assert (inject_Z c <= inject_Z k) by (rewrite <- Zle_Qle; lia). lra.
    + assert (inject_Z k + 1 <= inject_Z c).
      { change 1 with (inject_Z 1) at 1.
        rewrite <- inject_Z_plus, <- Zle_Qle. lia. }
      lra.
  - rewrite <- Hu' in Hk1, Hk2.
    destruct (Z.le_gt_cases r k) as [Hle|Hgt].
    + assert (inject_Z r <= inject_Z k) by (rewrite <- Zle_Qle; lia).
      assert (0 <= (inject_Z k - inject_Z r) * u)
        by (apply Qmult_le_0_compat; lra).
      lra.
    + assert (inject_Z k + 1 <= inject_Z r).
      { change 1 with (inject_Z 1) at 1.
        rewrite <- inject_Z_plus, <- Zle_Qle. lia. }
      assert (0 <= (inject_Z r - (inject_Z k + 1)) * u)
        by (apply Qmult_le_0_compat; lra).
      lra.
Qed.

End LayoutFacts.

Section HoverFacts.
Context {Image : Type}.
Implicit Types (items : list (Item Image)) (it : Item Image).

(** The test of line 219 decides membership in the closed rectangle. *)
Lemma hit_inside (mx my : Q) it : hit mx my it = true <-> inside mx my it.
Proof.
  unfold hit, inside, geq, leq.
  rewrite !andb_true_iff, !Qle_bool_iff. tauto.
Qed.

Lemma hit_outside (mx my : Q) it : hit mx my it = false <-> ~ inside mx my it.
Proof.
  rewrite <- hit_inside. destruct (hit mx my it); split; congruence.
Qed.

Lemma getHoveredItem_None items (mx my : Q) :
  getHoveredItem items mx my = None <->
  Forall (fun t => ~ inside mx my t) items.
Proof.
  induction items as [|t rest IH]; cbn.
  - split; [constructor|reflexivity].
  - destruct (hit mx my t) eqn:Ht.
    + split; [discriminate|]. intros HF. inversion HF as [|? ? Hn _]; subst.
      apply hit_inside in Ht. contradiction.
    + rewrite IH. apply hit_outside in Ht. split.
      * now constructor.
      * intros HF. now inversion HF.
Qed.

Lemma getHoveredItem_Some items (mx my : Q) it :
  getHoveredItem items mx my = Some it <->
  exists before after,
    items = before ++ it :: after /\
    Forall (fun t => ~ inside mx my t) before /\
    inside mx my it.
Proof.
  induction items as [|t rest IH]; cbn.
  - split; [discriminate|]. intros (before & after & Heq & _).
    destruct before; discriminate Heq.
  - destruct (hit mx my t) eqn:Ht.
    + apply hit_inside in Ht. split.
      * intros [= <-]. exists [], rest. repeat split; [constructor|apply Ht..].
      * intros (before & after & Heq & Hb & Hin).
        destruct before as [|b before]; cbn in Heq; injection Heq as -> Heq.
        -- reflexivity.
        -- inversion Hb; subst. contradiction.
    + apply hit_outside in Ht. rewrite IH. split.
      * intros (before & after & -> & Hb & Hin).
        exists (t :: before), after. repeat split; [now constructor|apply Hin..].
      * intros (before & after & Heq & Hb & Hin).
        destruct before as [|b before]; cbn in Heq; injection Heq as -> Heq.
        -- contradiction.
        -- exists before, after. inversion Hb; subst. repeat split; try apply Hin.
           assumption.
Qed.

Lemma getHoveredItem_hit items (mx my : Q) it :
  it ∈ items -> inside mx my it ->
  exists t, getHoveredItem items mx my = Some t.
Proof.
  intros Hel Hin.
  destruct (getHoveredItem items mx my) as [t|] eqn:Hg; [now exists t|].
  apply getHoveredItem_None in Hg.
  rewrite Forall_forall in Hg. now destruct (Hg it Hel).
Qed.

Lemma getHoveredItem_padding items (mx my : Q) :
  in_padding_or_gap (length items) mx my ->
  getHoveredItem (layoutGrid canvasWidth canvasHeight items) mx my = None.
Proof.
  intros Hreg. apply getHoveredItem_None, Forall_forall.
  intros tile Hel. now apply (padding_gap_outside items).
Qed.

(** C4. [getHoveredItem] returns a tile exactly when the pointer lies in the
    closed rectangle [x, x + width] x [y, y + height] of some tile, and the
    tile returned is the first such tile in stored order; for a pointer in
    the padding or in a gap of a laid-out grid it returns none. *)
Theorem getHoveredItem_first_hit items (mx my : Q) :
  (forall it,
     getHoveredItem items mx my = Some it <->
     exists before after,
       items = before ++ it :: after /\
       Forall (fun t => ~ inside mx my t) before /\
       inside mx my it) /\
  ((exists it, getHoveredItem items mx my = Some it) <->
   (exists it, it ∈ items /\ inside mx my it)) /\
  (getHoveredItem items mx my = None <->
   forall it, it ∈ items -> ~ inside mx my it) /\
  (in_padding_or_gap (length items) mx my ->
   getHoveredItem (layoutGrid canvasWidth canvasHeight items) mx my = None).
Proof.
  split; [intros it; apply getHoveredItem_Some|].
  split; [|split].
  - split.
    + intros [it Hit]. exists it. apply getHoveredItem_Some in Hit.
      destruct Hit as (before & after & -> & _ & Hin).
      split; [|exact Hin]. apply elem_of_app. right. apply elem_of_cons. now left.
    + intros (it & Hel & Hin). now apply (getHoveredItem_hit items mx my it).
  - rewrite getHoveredItem_None. apply Forall_forall.
  - apply getHoveredItem_padding.
Qed.

End HoverFacts.

Section PipelineFacts.
Context `{Collaborators}.
Implicit Types (g : Globals Image) (net : World).

(** Running [bind m k] when [m] returns: [k] continues from where [m]
    stopped, and what was seen is what [m] showed followed by what [k]
    shows. *)
Lemma bind_ok {A B} (m : Async A) (k : A -> Async B) g net (a : A) :
  outcome (m g net) = Ok a ->
  let r := k a (globals (m g net)) (world (m g net)) in
  outcome (bind m k g net) = outcome r /\
  globals (bind m k g net) = globals r /\
  world (bind m k g net) = world r /\
  seen (bind m k g net) = seen (m g net) ++ seen r.
Proof.
  unfold bind. destruct (m g net) as [s o g1 net1]. cbn. intros ->.
  now destruct (k a g1 net1).
Qed.

(** Running [bind m k] when [m] throws: [k] does not run. *)
Lemma bind_throw {A B} (m : Async A) (k : A -> Async B) g net (e : string) :
  outcome (m g net) = Throw e ->
  bind m k g net
  = mkRun (seen (m g net)) (Throw e) (globals (m g net)) (world (m g net)).
Proof.
  unfold bind. destruct (m g net) as [s o g1 net1]. cbn. now intros ->.
Qed.

(** [fetchObject] never throws, leaves the globals alone, and returns a
    record only with a truthy [imageUrl]. *)
Lemma fetchObject_run (id : value) g net :
  exists o,
    outcome (fetchObject id g net) = Ok o /\
    globals (fetchObject id g net) = g /\
    (forall rec, o = Some rec -> truthy (imageUrl rec) = true).
Proof.
  unfold fetchObject, try_catch, bind, await, ret, throw.
  destruct (fetchDetail id net) as [[res|m] net1]; cbn;
    [|now exists None].
  destruct (ok res); cbn; [|now exists None].
  destruct (json res) as [d|m]; cbn; [|now exists None].
  destruct (nullish d); cbn; [now exists None|].
  destruct (truthy (js_or (prop d "primaryImageSmall") (VStr EmptyString)))
    eqn:Ht; cbn; [|now exists None].
  eexists. split; [reflexivity|]. split; [reflexivity|].
  intros rec [= <-]. exact Ht.
Qed.

(** Its result and the world it leaves do not depend on the globals. *)
Lemma fetchObject_globals_irrelevant (id : value) g g' net :
  outcome (fetchObject id g' net) = outcome (fetchObject id g net) /\
  world (fetchObject id g' net) = world (fetchObject id g net).
Proof.
  unfold fetchObject, try_catch, bind, await, ret, throw.
  destruct (fetchDetail id net) as [[res|m] net1]; cbn;
    [|now split].
  destruct (ok res); cbn; [|now split].
  destruct (json res) as [d|m]; cbn; [|now split].
  destruct (nullish d); cbn; [now split|].
  destruct (truthy (js_or (prop d "primaryImageSmall") (VStr EmptyString)));
    cbn; now split.
Qed.

Lemma fetchObject_fetched (id : value) g net :
  exists o,
    fetched id net o (world (fetchObject id g net)) /\
    outcome (fetchObject id g net) = Ok o /\
    globals (fetchObject id g net) = g /\
    (forall rec, o = Some rec -> truthy (imageUrl rec) = true).
Proof.
  destruct (fetchObject_run id g net) as (o & Ho & Hg & Hurl).
  exists o. split; [|now repeat split].
  intros g'. destruct (fetchObject_globals_irrelevant id g g' net) as [Eo Ew].
  now rewrite Eo, Ew.
Qed.

Lemma truthy_not_empty (v : value) : truthy v = true -> v <> VStr EmptyString.
Proof. intros Ht ->. discriminate Ht. Qed.

(** The loop of lines 124-127 from any accumulator within the cap. *)
Lemma fetchLoop_run (ids : list value) (picked0 : list DetailRecord) g net :
  (length picked0 <= MAX_ITEMS)%nat ->
  exists tried,
    outcome (fetchLoop ids picked0 g net) = Ok (picked0 ++ omap snd tried) /\
    globals (fetchLoop ids picked0 g net) = g /\
    attempts net tried (world (fetchLoop ids picked0 g net)) /\
    map fst tried `prefix_of` ids /\
    (length (picked0 ++ omap snd tried) <= MAX_ITEMS)%nat /\
    Forall (fun rec => truthy (imageUrl rec) = true) (omap snd tried) /\
    (map fst tried = ids \/ length (picked0 ++ omap snd tried) = MAX_ITEMS).
Proof.
  revert picked0 g net.
  induction ids as [|id rest IH]; intros picked0 g net Hcap; cbn [fetchLoop].
  - exists []. cbn [omap list_omap map outcome globals world ret].
    rewrite app_nil_r.
    split; [reflexivity|]. split; [reflexivity|]. split; [constructor|].
    split; [reflexivity|]. split; [exact Hcap|]. split; [constructor|].
    now left.
  - destruct (length picked0 <? MAX_ITEMS)%nat eqn:Hlt.
    + apply Nat.ltb_lt in Hlt.
      destruct (fetchObject_fetched id g net) as (o & Hf & Ho & Hg & Hurl).
      set (picked1 := match o with Some r => picked0 ++ [r] | None => picked0 end).
      assert (Hcap1 : (length picked1 <= MAX_ITEMS)%nat).
      { unfold picked1. destruct o; [rewrite length_app; cbn|]; lia. }
      destruct (IH picked1 (globals (fetchObject id g net))
                  (world (fetchObject id g net)) Hcap1)
        as (tried & Hout & Hgl & Hatt & Hpre & Hlen & Hall & Hstop).
      assert (Heq : picked1 ++ omap snd tried
                    = picked0 ++ omap snd ((id, o) :: tried)).
      { unfold picked1. destruct o; cbn; [now rewrite <- app_assoc|reflexivity]. }
      exists ((id, o) :: tried).
      destruct (bind_ok (fetchObject id)
                  (fun obj => fetchLoop rest
                     (match obj with Some r => picked0 ++ [r] | None => picked0 end))
                  g net o Ho) as (Eo & Eg & Ew & _).
      fold picked1 in Eo, Eg, Ew.
      rewrite Hg in Eo, Eg, Ew, Hout, Hgl, Hatt.
      rewrite Eo, Eg, Ew, Hout, Hgl, <- Heq.
      split; [reflexivity|]. split; [reflexivity|].
      split; [econstructor; eassumption|].
      split; [cbn; now apply prefix_cons|].
      split; [exact Hlen|].
      split.
      * cbn. destruct o as [r|]; cbn; [constructor; auto|assumption].
      * destruct Hstop as [Hs|Hs]; [left; cbn; now rewrite Hs|now right].
    + apply Nat.ltb_ge in Hlt.
      exists []. cbn [omap list_omap map outcome globals world ret].
      rewrite app_nil_r.
      split; [reflexivity|]. split; [reflexivity|]. split; [constructor|].
      split; [apply prefix_nil|]. split; [exact Hcap|]. split; [constructor|].
      right. lia.
Qed.

(** C5. Whatever the candidate identifiers and whatever the detail requests
    do, the list [picked] built by the fetch loop has at most [MAX_ITEMS]
    (18) records, none with an empty [imageUrl], and consists of the records
    accepted for the identifiers tried, in the order of the candidate list,
    the skipped identifiers contributing nothing; the loop stops when the
    candidates are exhausted or the cap is reached. *)
Theorem fetchLoop_picked (ids : list value) g net :
  exists picked tried,
    outcome (fetchLoop ids [] g net) = Ok picked /\
    (length picked <= MAX_ITEMS)%nat /\ MAX_ITEMS = 18%nat /\
    Forall (fun rec => imageUrl rec <> VStr EmptyString /\
                       truthy (imageUrl rec) = true) picked /\
    attempts net tried (world (fetchLoop ids [] g net)) /\
    map fst tried `prefix_of` ids /\
    picked = omap snd tried /\
    (map fst tried = ids \/ length picked = MAX_ITEMS).
Proof.
  destruct (fetchLoop_run ids [] g net) as
    (tried & Hout & _ & Hatt & Hpre & Hlen & Hall & Hstop); [cbn; lia|].
  cbn [app] in *.
  exists (omap snd tried), tried.
  repeat split; try assumption.
  eapply Forall_impl; [exact Hall|].
  intros rec Ht. split; [now apply truthy_not_empty|exact Ht].
Qed.

(** One iteration of the preload loop: the function is suspended on the
    image load showing the globals [g], then pushes the tile, updates the
    status and goes on. *)
Lemma preloadLoop_step (b : DetailRecord) (rest : list DetailRecord)
    (i n : nat) g net :
  preloadLoop (b :: rest) i n g net =
  let '(im, net1) := loadImage (imageUrl b) net in
  let g1 := setStatus ("loading thumbnails" ++ ellipsis ++ " "
                         ++ decimal (i + 1) ++ "/" ++ decimal n)
              (set_items (items g ++ [mkItem b im 0 0 0 0]) g) in
  let '(mkRun s o g2 net2) := preloadLoop rest (S i) n g1 net1 in
  mkRun (g :: s) o g2 net2.
Proof.
  cbn [preloadLoop]. unfold bind at 1. unfold loadP5Image, await.
  destruct (loadImage (imageUrl b) net) as [im net1].
  unfold bind, update.
  now destruct (preloadLoop rest (S i) n _ net1).
Qed.

Lemma preloadLoop_run (rest : list DetailRecord) (i n : nat) g net :
  exists tiles,
    outcome (preloadLoop rest i n g net) = Ok tt /\
    items (globals (preloadLoop rest i n g net)) = items g ++ tiles /\
    loading (globals (preloadLoop rest i n g net)) = loading g /\
    errMsg (globals (preloadLoop rest i n g net)) = errMsg g /\
    map base tiles = rest /\
    loaded net tiles (world (preloadLoop rest i n g net)).
Proof.
  revert i g net. induction rest as [|b rest IH]; intros i g net.
  - exists []. cbn. rewrite app_nil_r. repeat split. constructor.
  - rewrite preloadLoop_step.
    destruct (loadImage (imageUrl b) net) as [im net1] eqn:El.
    cbv zeta.
    match goal with
    | |- context [preloadLoop rest (S i) n ?g1 net1] =>
        destruct (IH (S i) g1 net1) as (tiles & Ho & Hit & Hlo & Her & Hb & Hl);
        destruct (preloadLoop rest (S i) n g1 net1) as [s o g2 net2]
    end.
    cbn in Ho, Hit, Hlo, Her, Hl |- *.
    exists (mkItem b im 0 0 0 0 :: tiles).
    split; [exact Ho|].
    split; [rewrite Hit, <- app_assoc; reflexivity|].
    split; [exact Hlo|]. split; [exact Her|].
    split; [cbn; now rewrite Hb|].
    econstructor; [exact El|reflexivity..|exact Hl].
Qed.

Lemma loaded_lookup net (tiles : list (Item Image)) net' (i : nat)
    (t : Item Image) :
  loaded net tiles net' ->
  tiles !! i = Some t ->
  zero_bounds t /\
  exists net_i, img t = fst (loadImage (imageUrl (base t)) net_i).
Proof.
  intros Hl. revert i. induction Hl as [|t0 net net1 rest net' El Hx Hy Hw Hh _ IH];
    intros i Hi.
  - discriminate Hi.
  - destruct i as [|i]; cbn in Hi.
    + injection Hi as <-. split.
      * unfold zero_bounds. now rewrite Hx, Hy, Hw, Hh.
      * exists net. now rewrite El.
    + now apply IH in Hi.
Qed.

(** C6. The preload loop produces a tile list of the same length and in the
    same order as the records it is given, whatever image loads fail: it
    never throws, the tile at each index carries the record at that index,
    zero bounds and what the load of its [imageUrl] produced, and a failed
    load leaves the tile in the list with its image absent. *)
Theorem preload_tiles (picked : list DetailRecord) g net :
  let r := preload picked g net in
  outcome r = Ok tt /\
  length (items (globals r)) = length picked /\
  map base (items (globals r)) = picked /\
  loaded net (items (globals r)) (world r) /\
  (forall (i : nat) (rec : DetailRecord),
     picked !! i = Some rec ->
     exists t net_i,
       items (globals r) !! i = Some t /\ base t = rec /\ zero_bounds t /\
       img t = fst (loadImage (imageUrl rec) net_i) /\
       (fst (loadImage (imageUrl rec) net_i) = None -> img t = None)).
Proof.
  unfold preload.
  destruct (preloadLoop_run picked 0 (length picked) (set_items [] g) net)
    as (tiles & Ho & Hit & _ & _ & Hb & Hl).
  assert (Hrun : bind (update (set_items [])) (fun _ => preloadLoop picked 0 (length picked)) g net
                 = preloadLoop picked 0 (length picked) (set_items [] g) net).
  { unfold bind, update. now destruct (preloadLoop picked 0 _ _ net). }
  cbv zeta. rewrite Hrun. cbn [items set_items app] in Hit.
  rewrite Hit.
  split; [exact Ho|].
  split; [rewrite <- Hb; now rewrite length_map|].
  split; [exact Hb|]. split; [exact Hl|].
  intros i rec Hi. rewrite <- Hb in Hi.
  rewrite list_lookup_fmap in Hi.
  destruct (tiles !! i) as [t|] eqn:Ht; [|discriminate].
  injection Hi as <-.
  destruct (loaded_lookup _ _ _ _ _ Hl Ht) as (Hz & net_i & Himg).
  exists t, net_i. repeat split; try assumption; try apply Hz.
  intros Hnone. now rewrite Himg.
Qed.

Lemma bind_update {B} (f : Globals Image -> Globals Image)
    (k : unit -> Async B) g net :
  bind (update f) k g net = k tt (f g) net.
Proof. unfold bind, update. now destruct (k tt (f g) net). Qed.

(** Lines 99-102 overwrite every global: nothing of the previous session
    survives the start of a search. *)
Lemma searchMet_start (query : string) g net :
  searchMet query g net = searchMet_try query (searching query) net.
Proof. unfold searchMet. now rewrite !bind_update. Qed.

Lemma searchMet_try_fails (query : string) net (message : string) :
  search_fails query net message ->
  exists s,
    searchMet_try query (searching query) net
    = mkRun s (Ok tt) (failed message) (snd (fetchSearch query net)) /\
    Forall (fun g' => g' = searching query) s.
Proof.
  unfold search_fails, searchMet_try, try_finally, try_catch, bind, await,
    throw, ret, update.
  destruct (fetchSearch query net) as [[res|m] net1]; cbn.
  - destruct (ok res); cbn.
    + intros ->. cbn. eexists. split; [reflexivity|]. repeat constructor.
    + intros ->. eexists. split; [reflexivity|]. repeat constructor.
  - intros ->. eexists. split; [reflexivity|]. repeat constructor.
Qed.

Lemma occurs_in_suffix (pre sub : string) : occurs_in sub (pre ++ sub).
Proof.
  exists pre, EmptyString.
  assert (E : forall a : string, (a ++ EmptyString)%string = a)
    by (induction a as [|c a IH]; cbn; [reflexivity|now rewrite IH]).
  now rewrite E.
Qed.

(** C7. When the search request is answered with a non-ok status,
    [searchMet] ends in the Error phase ([errMsg] non-null, [loading]
    false): the message is "search http " followed by the status, so for
    status 500 it contains "http 500"; the tile list is empty; and the
    session is Loading at every suspension point, never Ready. *)
Theorem searchMet_http_error (query : string) g net
    (res : Response SearchJson) (net1 : World) :
  fetchSearch query net = (Ok res, net1) ->
  ok res = false ->
  let r := searchMet query g net in
  outcome r = Ok tt /\
  loading (globals r) = false /\
  errMsg (globals r) = Some ("search http " ++ decimalN (status res))%string /\
  statusText (globals r)
  = ("error: search http " ++ decimalN (status res))%string /\
  items (globals r) = [] /\
  phase (globals r) = Error /\
  Forall (fun g' => phase g' = Loading /\ items g' = []) (seen r) /\
  (status res = 500%N ->
   errMsg (globals r) = Some "search http 500"%string /\
   occurs_in "http 500" "search http 500").
Proof.
  intros Hf Hok r. subst r. rewrite searchMet_start.
  destruct (searchMet_try_fails query net
              ("search http " ++ decimalN (status res))%string) as (s & -> & Hs).
  { unfold search_fails. rewrite Hf. cbn [fst]. now rewrite Hok. }
  cbn [outcome globals seen failed loading errMsg items statusText].
  do 5 (split; [reflexivity|]).
  split; [reflexivity|].
  split.
  - eapply Forall_impl; [exact Hs|]. now intros g' ->.
  - intros ->. split; [reflexivity|].
    apply (occurs_in_suffix "search ").
Qed.

(** C8. When the search succeeds but [objectIDs] is absent or empty,
    [searchMet] returns normally in the Ready phase ([loading] false,
    [errMsg] null) with no tiles and the "no matches" status; no further
    request is made. *)
Theorem searchMet_no_matches (query : string) g net
    (res : Response SearchJson) (body : SearchJson) (net1 : World) :
  fetchSearch query net = (Ok res, net1) ->
  ok res = true ->
  json res = Ok body ->
  objectIDs body = None \/ objectIDs body = Some [] ->
  let r := searchMet query g net in
  outcome r = Ok tt /\
  loading (globals r) = false /\
  errMsg (globals r) = None /\
  items (globals r) = [] /\
  statusText (globals r)
  = ("no matches for " ++ dq ++ query ++ dq ++ ".")%string /\
  occurs_in "no matches" (statusText (globals r)) /\
  phase (globals r) = Ready /\
  world r = net1.
Proof.
  intros Hf Hok Hj Hids r. subst r. rewrite searchMet_start.
  assert (Hrun : exists s,
             searchMet_try query (searching query) net
             = mkRun s (Ok tt) (no_matches query) net1).
  { unfold searchMet_try, try_finally, try_catch, bind, await, throw, ret, update.
    rewrite Hf. cbn. rewrite Hok. cbn. rewrite Hj. cbn.
    destruct Hids as [-> | ->]; cbn; eexists; reflexivity. }
  destruct Hrun as (s & ->).
  cbn [outcome globals world no_matches loading errMsg items statusText].
  repeat split.
  exists EmptyString, (" for " ++ dq ++ query ++ dq ++ ".")%string. reflexivity.
Qed.

(** A computation that starts with an [await] is first suspended with the
    globals it was started with; [try] blocks do not change that. *)
Lemma seen_bind_await {A B} (p : World -> Outcome A * World)
    (k : A -> Async B) g net :
  exists rest, seen (bind (await p) k g net) = g :: rest.
Proof.
  unfold bind, await. destruct (p net) as [[a|e] net1].
  - destruct (k a g net1). eexists. reflexivity.
  - eexists. reflexivity.
Qed.

Lemma seen_try_catch {A} (m : Async A) (handler : string -> Async A) g net g0 :
  (exists rest, seen (m g net) = g0 :: rest) ->
  exists rest, seen (try_catch m handler g net) = g0 :: rest.
Proof.
  unfold try_catch. destruct (m g net) as [s [a|e] g1 net1]; cbn.
  - trivial.
  - intros [rest ->]. destruct (handler e g1 net1). eexists. reflexivity.
Qed.

Lemma seen_try_finally {A} (m : Async A) (fin : Async unit) g net g0 :
  (exists rest, seen (m g net) = g0 :: rest) ->
  exists rest, seen (try_finally m fin g net) = g0 :: rest.
Proof.
  unfold try_finally. destruct (m g net) as [s o g1 net1]; cbn.
  intros [rest ->]. destruct (fin g1 net1). eexists. reflexivity.
Qed.

(** C10. [searchMet] empties the tile list before its first request: the
    run does not depend on the globals of the previous session, the first
    suspension point (the search request) already shows no tiles, and a
    search that fails at the search step ends with no tiles, whatever grid
    was on display before. *)
Theorem searchMet_discards_tiles (query : string) g net :
  let r := searchMet query g net in
  (forall g', searchMet query g' net = r) /\
  (exists rest, seen r = searching query :: rest) /\
  items (searching query) = [] /\
  (forall message,
     search_fails query net message ->
     items (globals r) = [] /\
     errMsg (globals r) = Some message /\
     loading (globals r) = false /\
     Forall (fun g' => items g' = []) (seen r)).
Proof.
  cbv zeta. rewrite searchMet_start.
  split; [intros g'; apply searchMet_start|].
  split; [|split; [reflexivity|]].
  - apply seen_try_finally, seen_try_catch, seen_bind_await.
  - intros message Hfail.
    destruct (searchMet_try_fails query net message Hfail) as (s & -> & Hs).
    cbn. repeat split.
    eapply Forall_impl; [exact Hs|]. now intros g' ->.
Qed.

(** The origin lies in the closed rectangle of a tile with zero bounds. *)
Lemma zero_bounds_inside_origin (t : Item Image) : zero_bounds t -> inside 0 0 t.
Proof.
  intros (Hx & Hy & Hw & Hh). unfold inside.
  rewrite Hx, Hy, Hw, Hh. repeat split; discriminate.
Qed.

(** At every suspension point of the preload loop the tiles pushed so far
    are not laid out. *)
Lemma preloadLoop_seen (rest : list DetailRecord) (i n : nat) g net :
  Forall zero_bounds (items g) ->
  Forall (fun g' => Forall zero_bounds (items g') /\ loading g' = loading g)
         (seen (preloadLoop rest i n g net)).
Proof.
  revert i g net. induction rest as [|b rest IH]; intros i g net Hz.
  - constructor.
  - rewrite preloadLoop_step.
    destruct (loadImage (imageUrl b) net) as [im net1]. cbv zeta.
    match goal with
    | |- context [preloadLoop rest (S i) n ?g1 net1] =>
        pose proof (IH (S i) g1 net1) as IH1;
        destruct (preloadLoop rest (S i) n g1 net1) as [s o g2 net2]
    end.
    cbn in IH1 |- *. constructor; [now split|].
    apply IH1. apply Forall_app. split; [exact Hz|].
    repeat constructor; reflexivity.
Qed.

(** C9, for the first tile containing the origin. When the tile list holds
    a tile whose bounds are still the initial zeros, [getHoveredItem] at the pointer (0,0) returns a tile
    rather than none: the first tile in stored order whose rectangle
    contains the origin, which is that tile itself when no earlier tile
    contains the origin.  The inclusive test makes a zero-size rectangle
    contain its corner, although the origin lies in the outer padding of
    every laid-out grid; [mousePressed] hit-tests whatever [loading] and
    [errMsg] are, and at every suspension point of the preload loop the
    tiles on display are such tiles. *)
Theorem unlaid_tile_hit_at_origin (tiles : list (Item Image)) (it : Item Image) :
  it ∈ tiles ->
  zero_bounds it ->
  inside 0 0 it /\
  (exists t before after,
     getHoveredItem tiles 0 0 = Some t /\
     tiles = before ++ t :: after /\
     Forall (fun u => ~ inside 0 0 u) before /\ inside 0 0 t) /\
  (forall before after,
     tiles = before ++ it :: after ->
     Forall (fun u => ~ inside 0 0 u) before ->
     getHoveredItem tiles 0 0 = Some it) /\
  getHoveredItem (layoutGrid canvasWidth canvasHeight tiles) 0 0 = None /\
  (forall (busy : bool) (err : option string) (text : string),
   exists t,
     getHoveredItem tiles 0 0 = Some t /\
     mousePressed (mkGlobals Image busy err tiles text) 0 0
     = Some (MetPage (objectID (base t)))) /\
  (forall (picked : list DetailRecord) g net g',
     g' ∈ seen (preload picked g net) ->
     Forall zero_bounds (items g') /\ loading g' = loading g).
Proof.
  intros Hel Hz.
  pose proof (zero_bounds_inside_origin it Hz) as Hin.
  assert (Hsome : exists t, getHoveredItem tiles 0 0 = Some t).
  { now apply (getHoveredItem_hit tiles 0 0 it). }
  destruct Hsome as [t Ht].
  split; [exact Hin|]. split; [|split; [|split; [|split]]].
  - pose proof Ht as Ht'. apply getHoveredItem_Some in Ht'.
    destruct Ht' as (before & after & Heq & Hb & Hi).
    now exists t, before, after.
  - intros before after Heq Hb. apply getHoveredItem_Some.
    now exists before, after.
  - apply getHoveredItem_padding.
    left. reflexivity.
  - intros busy err text. exists t. split; [exact Ht|].
    unfold mousePressed. cbn [items]. now rewrite Ht.
  - intros picked g net g' Hg'. unfold preload in Hg'.
    rewrite bind_update in Hg'.
    pose proof (preloadLoop_seen picked 0 (length picked) (set_items [] g) net)
      as Hs.
    specialize (Hs ltac:(constructor)).
    rewrite Forall_forall in Hs. exact (Hs g' Hg').
Qed.

End PipelineFacts.

(** ** Runs of the scripted session *)

(** The query "cat": object 2 is skipped, the image of object 3 fails to
    load and its tile is kept; the three tiles are laid out in one row. *)
Example scripted_cat_run :
  let r := @searchMet scripted "cat" idle 0%nat in
  outcome r = Ok tt /\
  phase (globals r) = Ready /\
  map (fun t => (objectID (base t), img t)) (items (globals r))
  = [(VNum 1, Some "img/1.jpg"%string); (VNum 3, None);
     (VNum 4, Some "img/4.jpg"%string)] /\
  Forall (fun t => w t == 135 /\ h t == 520) (items (globals r)) /\
  world r = 8%nat.
Proof.
  vm_compute. repeat split; repeat constructor; reflexivity.
Qed.

(** While the third thumbnail of the "cat" search loads, the session is
    loading and shows the tiles of objects 1 and 3, both with zero bounds:
    at the pointer (0,0) the hit test returns the tile of object 1, not the
    tile of object 3, and a click opens the page of object 1. *)
Lemma second_unlaid_tile_not_returned :
  exists g' t1 t3,
    seen (@searchMet scripted "cat" idle 0%nat) !! 11%nat = Some g' /\
    loading g' = true /\
    items g' = [t1; t3] /\
    objectID (base t1) = VNum 1 /\ objectID (base t3) = VNum 3 /\
    zero_bounds t1 /\ zero_bounds t3 /\
    getHoveredItem (items g') 0 0 = Some t1 /\
    getHoveredItem (items g') 0 0 <> Some t3 /\
    mousePressed g' 0 0 = Some (MetPage (VNum 1)).
Proof.
  do 3 eexists.
  split; [vm_compute; reflexivity|].
  split; [reflexivity|]. split; [reflexivity|].
  split; [reflexivity|]. split; [reflexivity|].
  split; [repeat split|]. split; [repeat split|].
  split; [reflexivity|]. split; [discriminate|reflexivity].
Qed.

(** With 79 tiles the grid has 14 rows of height 390/14 rounded; the last
    row starts at 512.1428571428572 and the code's sum [y + h] is
    540.0000000000001 (4749890231992321 * 2^-43, where 540 is
    4749890231992320 * 2^-43): the rectangle ends below the padded canvas. *)
Lemma layoutGrid64_79_tiles_overflow :
  let tiles := replicate 79 (mkItem64 (base (pushed 1)) (@None string)
                               (dbl 0) (dbl 0) (dbl 0) (dbl 0)) in
  (1 <= length tiles)%nat /\
  (exists t,
     layoutGrid64 canvasWidth64 canvasHeight64 tiles !! 78%nat = Some t /\
     fadd (y64 t) (h64 t) = S754_finite false 4749890231992321 (-43) /\
     fsub canvasHeight64 PAD64 = S754_finite false 4749890231992320 (-43) /\
     fleb (fadd (y64 t) (h64 t)) (fsub canvasHeight64 PAD64) = false) /\
  ~ (length (layoutGrid64 canvasWidth64 canvasHeight64 tiles) = length tiles /\
     Forall within_canvas64 (layoutGrid64 canvasWidth64 canvasHeight64 tiles)).
Proof.
  cbv zeta.
  assert (Hl : exists t,
             layoutGrid64 canvasWidth64 canvasHeight64
               (replicate 79 (mkItem64 (base (pushed 1)) (@None string)
                                (dbl 0) (dbl 0) (dbl 0) (dbl 0))) !! 78%nat
             = Some t /\
             fadd (y64 t) (h64 t) = S754_finite false 4749890231992321 (-43) /\
             fsub canvasHeight64 PAD64 = S754_finite false 4749890231992320 (-43) /\
             fleb (fadd (y64 t) (h64 t)) (fsub canvasHeight64 PAD64) = false).
  { eexists. split; [vm_compute; reflexivity|].
    split; [vm_compute; reflexivity|].
    split; vm_compute; reflexivity. }
  split; [vm_compute; lia|]. split; [exact Hl|].
  destruct Hl as (t & Hl & _ & _ & Hover).
  intros [_ HF]. rewrite Forall_lookup in HF.
  destruct (HF _ _ Hl) as (_ & _ & _ & _ & _ & Hyh & _).
  congruence.
Qed.

(** ** The theorems at concrete inputs *)

Lemma layoutGrid_rectangles_witness :
  (0 < length [pushed 1; pushed 2])%nat /\
  exists tile,
    layoutGrid 900 560 [pushed 1; pushed 2] !! 0%nat = Some tile /\
    x tile == 20 /\ y tile == 20 /\ w tile == 135 /\ h tile == 520.
Proof.
  assert (Hi : (0 < length [pushed 1; pushed 2])%nat) by (cbn; lia).
  split; [exact Hi|].
  destruct (layoutGrid_rectangles 900 560 [pushed 1; pushed 2] 0 Hi)
    as (_ & (it & tile & _ & Hl & _ & _ & Hx & Hy & Hw & Hh) & _).
  exists tile. split; [exact Hl|].
  rewrite Hx, Hy, Hw, Hh. repeat split; reflexivity.
Defined.

Lemma layoutGrid64_within_canvas_witness :
  let tiles := replicate 18 (mkItem64 (base (pushed 1)) (@None string)
                               (dbl 0) (dbl 0) (dbl 0) (dbl 0)) in
  (1 <= length tiles <= MAX_ITEMS)%nat /\
  length (layoutGrid64 canvasWidth64 canvasHeight64 tiles) = length tiles /\
  Forall within_canvas64 (layoutGrid64 canvasWidth64 canvasHeight64 tiles).
Proof.
  cbv zeta.
  assert (Hn : (1 <= length (replicate 18
                               (mkItem64 (base (pushed 1)) (@None string)
                                  (dbl 0) (dbl 0) (dbl 0) (dbl 0)))
                <= MAX_ITEMS)%nat) by (vm_compute; lia).
  split; [exact Hn|].
  exact (layoutGrid64_within_canvas _ Hn).
Defined.

Lemma layoutGrid_no_overlap_witness :
  0%nat <> 1%nat /\
  exists ti tj,
    layoutGrid 900 560 [pushed 1; pushed 2] !! 0%nat = Some ti /\
    layoutGrid 900 560 [pushed 1; pushed 2] !! 1%nat = Some tj /\
    ~ (inside 100 100 ti /\ inside 100 100 tj).
Proof.
  assert (Hne : 0%nat <> 1%nat) by discriminate.
  split; [exact Hne|].
  do 2 eexists. split; [reflexivity|]. split; [reflexivity|].
  exact (layoutGrid_no_overlap 900 560 [pushed 1; pushed 2] 0 1 _ _ 100 100
           Hne eq_refl eq_refl).
Defined.

Lemma getHoveredItem_first_hit_witness :
  in_padding_or_gap (length [pushed 1; pushed 2]) 5 5 /\
  getHoveredItem (layoutGrid canvasWidth canvasHeight [pushed 1; pushed 2]) 5 5
  = None.
Proof.
  assert (Hreg : in_padding_or_gap (length [pushed 1; pushed 2]) 5 5)
    by (left; reflexivity).
  split; [exact Hreg|].
  exact (proj2 (proj2 (proj2 (getHoveredItem_first_hit [pushed 1; pushed 2] 5 5)))
           Hreg).
Defined.

Lemma fetchLoop_picked_witness :
  exists picked,
    outcome (@fetchLoop scripted scriptedIds [] idle 0%nat) = Ok picked /\
    (length picked <= 18)%nat.
Proof.
  destruct (@fetchLoop_picked scripted scriptedIds idle 0%nat)
    as (picked & tried & Ho & Hlen & Hmax & _).
  exists picked. split; [exact Ho|]. now rewrite <- Hmax.
Defined.

Lemma preload_tiles_witness :
  length (items (globals (@preload scripted (map base [pushed 1; pushed 2])
                            idle 0%nat))) = 2%nat.
Proof.
  exact (proj1 (proj2 (@preload_tiles scripted (map base [pushed 1; pushed 2])
                         idle 0%nat))).
Defined.

Lemma searchMet_http_error_witness :
  fetchSearch (Collaborators := scripted) "boom" 0%nat
  = (Ok (mkResponse false 500 (Throw "Unexpected token")), 1%nat) /\
  errMsg (globals (@searchMet scripted "boom" idle 0%nat))
  = Some "search http 500"%string /\
  phase (globals (@searchMet scripted "boom" idle 0%nat)) = Error.
Proof.
  split; [reflexivity|].
  pose proof (@searchMet_http_error scripted "boom" idle 0%nat
                (mkResponse false 500 (Throw "Unexpected token")) 1%nat
                eq_refl eq_refl) as W.
  cbv zeta in W.
  destruct W as (_ & _ & _ & _ & _ & Hp & _ & H500).
  split; [exact (proj1 (H500 eq_refl))|exact Hp].
Defined.

Lemma searchMet_no_matches_witness :
  fetchSearch (Collaborators := scripted) "void" 0%nat
  = (Ok (mkResponse true 200 (Ok (mkSearchJson None))), 1%nat) /\
  phase (globals (@searchMet scripted "void" idle 0%nat)) = Ready /\
  items (globals (@searchMet scripted "void" idle 0%nat)) = [].
Proof.
  split; [reflexivity|].
  pose proof (@searchMet_no_matches scripted "void" idle 0%nat
                (mkResponse true 200 (Ok (mkSearchJson None)))
                (mkSearchJson None) 1%nat
                eq_refl eq_refl eq_refl (or_introl eq_refl)) as W.
  cbv zeta in W.
  destruct W as (_ & _ & _ & Hi & _ & _ & Hp & _).
  split; [exact Hp|exact Hi].
Defined.

Lemma unlaid_tile_hit_at_origin_witness :
  pushed 2 ∈ [pushed 1; pushed 2] /\
  zero_bounds (pushed 2) /\
  exists t, getHoveredItem [pushed 1; pushed 2] 0 0 = Some t.
Proof.
  assert (Hel : pushed 2 ∈ [pushed 1; pushed 2])
    by (apply elem_of_cons; right; apply elem_of_cons; now left).
  assert (Hz : zero_bounds (pushed 2)) by (repeat split).
  split; [exact Hel|]. split; [exact Hz|].
  destruct (@unlaid_tile_hit_at_origin scripted [pushed 1; pushed 2] (pushed 2)
              Hel Hz) as (_ & (t & _ & _ & Ht & _) & _).
  now exists t.
Defined.

Lemma searchMet_discards_tiles_witness :
  search_fails (H := scripted) "boom" 0%nat "search http 500" /\
  items (globals (@searchMet scripted "boom"
                    (mkGlobals string false None
                       (layoutGrid canvasWidth canvasHeight [pushed 1; pushed 2])
                       "loaded 2 images") 0%nat)) = [].
Proof.
  assert (Hf : search_fails (H := scripted) "boom" 0%nat "search http 500")
    by reflexivity.
  split; [exact Hf|].
  exact (proj1 (proj2 (proj2 (proj2
           (@searchMet_discards_tiles scripted "boom"
              (mkGlobals string false None
                 (layoutGrid canvasWidth canvasHeight [pushed 1; pushed 2])
                 "loaded 2 images") 0%nat))) _ Hf)).
Defined.

(** * The rest of the sketch: the whole search, drawing, clicks *)

Section GridFacts.
Context {Image : Type}.
Implicit Types (items tiles : list (Item Image)) (t : Item Image).

Lemma layoutGrid_keeps_base (width height : Q) items :
  map base (layoutGrid width height items) = map base items.
Proof.
  apply list_eq. intros i. rewrite !list_lookup_fmap, layoutGrid_lookup.
  now destruct (items !! i).
Qed.

Lemma layoutGrid_keeps_img (width height : Q) items :
  map img (layoutGrid width height items) = map img items.
Proof.
  apply list_eq. intros i. rewrite !list_lookup_fmap, layoutGrid_lookup.
  now destruct (items !! i).
Qed.

(** X1. [layoutGrid] overwrites the bounds and nothing else: the count, the
    records and the images are kept, an empty list stays empty, and laying
    out again gives the same list. *)
Theorem layoutGrid_idempotent (width height : Q) items :
  length (layoutGrid width height items) = length items /\
  map base (layoutGrid width height items) = map base items /\
  map img (layoutGrid width height items) = map img items /\
  (items = [] -> layoutGrid width height items = []) /\
  layoutGrid width height (layoutGrid width height items)
  = layoutGrid width height items.
Proof.
  split; [apply layoutGrid_length|].
  split; [apply layoutGrid_keeps_base|].
  split; [apply layoutGrid_keeps_img|]. split.
  - now intros ->.
  - apply list_eq. intros i.
    rewrite (layoutGrid_lookup width height (layoutGrid width height items)).
    rewrite layoutGrid_length, layoutGrid_lookup.
    now destruct (items !! i).
Qed.

(** Two distinct tiles of a laid-out list share no point. *)
Lemma layoutGrid_apart (width height : Q) items (i j : nat) (ti tj : Item Image)
    (px py : Q) :
  i <> j ->
  layoutGrid width height items !! i = Some ti ->
  layoutGrid width height items !! j = Some tj ->
  inside px py ti -> inside px py tj -> False.
Proof.
  intros Hij Hi Hj [[Hxi1 Hxi2] [Hyi1 Hyi2]] [[Hxj1 Hxj2] [Hyj1 Hyj2]].
  apply layoutGrid_tile in Hi, Hj. cbv zeta in Hi, Hj.
  destruct Hi as (_ & Hxi & Hyi & Hwi & Hhi).
  destruct Hj as (_ & Hxj & Hyj & Hwj & Hhj).
  rewrite Hxi in Hxi1, Hxi2. rewrite Hwi in Hxi2.
  rewrite Hxj in Hxj1, Hxj2. rewrite Hwj in Hxj2.
  rewrite Hyi in Hyi1, Hyi2. rewrite Hhi in Hyi2.
  rewrite Hyj in Hyj1, Hyj2. rewrite Hhj in Hyj2.
  pose proof (Z.div_mod (Z.of_nat i) 6 ltac:(lia)).
  pose proof (Z.div_mod (Z.of_nat j) 6 ltac:(lia)).
  destruct (Z.lt_total (Z.of_nat i mod 6) (Z.of_nat j mod 6)) as [Hc|[Hc|Hc]];
    [exact (cells_apart _ _ _ _ Hc Hxi1 Hxi2 Hxj1)| |
     exact (cells_apart _ _ _ _ Hc Hxj1 Hxj2 Hxi1)].
  destruct (Z.lt_total (Z.of_nat i / 6) (Z.of_nat j / 6)) as [Hr|[Hr|Hr]];
    [exact (cells_apart _ _ _ _ Hr Hyi1 Hyi2 Hyj1)|lia|
     exact (cells_apart _ _ _ _ Hr Hyj1 Hyj2 Hyi1)].
Qed.

Lemma hover_laid_out (width height : Q) items (mx my : Q) t :
  getHoveredItem (layoutGrid width height items) mx my = Some t <->
  t ∈ layoutGrid width height items /\ inside mx my t.
Proof.
  split.
  - intros Hg. apply getHoveredItem_Some in Hg.
    destruct Hg as (before & after & Heq & _ & Hin).
    split; [|exact Hin]. rewrite Heq.
    apply elem_of_app. right. apply elem_of_cons. now left.
  - intros [Hel Hin].
    destruct (getHoveredItem_hit _ mx my t Hel Hin) as [t' Ht'].
    rewrite Ht'. f_equal.
    pose proof Ht' as Hs. apply getHoveredItem_Some in Hs.
    destruct Hs as (before & after & Heq & _ & Hin').
    apply list_elem_of_lookup in Hel. destruct Hel as [i Hi].
    assert (Hj : layoutGrid width height items !! length before = Some t').
    { rewrite Heq. rewrite lookup_app_r by lia.
      now rewrite Nat.sub_diag. }
    destruct (Nat.eq_dec i (length before)) as [->|Hne].
    + congruence.
    + destruct (layoutGrid_apart width height items i (length before) t t'
                  mx my Hne Hi Hj Hin Hin').
Qed.

(** X2. On a laid-out grid the hit test does not depend on the scan order:
    [getHoveredItem] returns a tile exactly when that tile is in the grid
    and its closed rectangle contains the pointer, and at most one tile
    does. *)
Theorem hover_laid_out_grid (width height : Q) items (mx my : Q) :
  (forall t,
     getHoveredItem (layoutGrid width height items) mx my = Some t <->
     t ∈ layoutGrid width height items /\ inside mx my t) /\
  (forall t t',
     t ∈ layoutGrid width height items -> inside mx my t ->
     t' ∈ layoutGrid width height items -> inside mx my t' ->
     t = t').
Proof.
  split; [intros t; apply hover_laid_out|].
  intros t t' Hel Hin Hel' Hin'.
  assert (E : getHoveredItem (layoutGrid width height items) mx my = Some t)
    by now apply hover_laid_out.
  assert (E' : getHoveredItem (layoutGrid width height items) mx my = Some t')
    by now apply hover_laid_out.
  congruence.
Qed.

(** X3. A click on a laid-out 900 x 560 grid opens the page of the tile
    under the pointer, and opens nothing when the pointer is in the padding
    or in a gap; whether the session is loading or in error plays no
    part. *)
Theorem click_opens_tile_under_pointer (busy : bool) (err : option string)
    (text : string) tiles (mx my : Q) :
  let g := mkGlobals Image busy err
             (layoutGrid canvasWidth canvasHeight tiles) text in
  (forall t,
     t ∈ items g -> inside mx my t ->
     mousePressed g mx my = Some (MetPage (objectID (base t)))) /\
  (mousePressed g mx my = None <->
   forall t, t ∈ items g -> ~ inside mx my t) /\
  (in_padding_or_gap (length tiles) mx my -> mousePressed g mx my = None).
Proof.
  cbv zeta. unfold mousePressed. cbn [items].
  split; [|split].
  - intros t Hel Hin.
    assert (E : getHoveredItem (layoutGrid canvasWidth canvasHeight tiles) mx my
                = Some t) by now apply hover_laid_out.
    now rewrite E.
  - destruct (getHoveredItem _ mx my) as [t|] eqn:Hg.
    + split; [discriminate|]. intros Hno.
      apply hover_laid_out in Hg. destruct Hg as [Hel Hin].
      now destruct (Hno t Hel).
    + split; [|reflexivity]. intros _.
      apply getHoveredItem_None in Hg. now rewrite Forall_forall in Hg.
  - intros Hreg. now rewrite getHoveredItem_padding.
Qed.

(** A tile of a grid of 1 to 312 tiles laid out on the 900 x 560 canvas has
    positive size and lies inside the padding. *)
Lemma layoutGrid_tile_within tiles (i : nat) t :
  (length tiles <= 312)%nat ->
  layoutGrid canvasWidth canvasHeight tiles !! i = Some t ->
  within_canvas t.
Proof.
  intros Hn Hl.
  apply layoutGrid_canvas_tile in Hl.
  destruct Hl as (c & r & u & Hc & Hr & _ & Hu & HuR & Hx & Hw & Hy & Hh).
  pose proof (rowsZ_bounds (length tiles)) as HR.
  set (R := rowsZ (length tiles)) in *.
  assert (HRq : 1 <= inject_Z R <= 52) by (apply (inject_Z_bounds R 1 52); lia).
  assert (Hcq : 0 <= inject_Z c <= 5) by (apply (inject_Z_bounds c 0 5); lia).
  assert (Hrq : 0 <= inject_Z r /\ inject_Z r + 1 <= inject_Z R).
  { split.
    - change 0 with (inject_Z 0). rewrite <- Zle_Qle. lia.
    - change 1 with (inject_Z 1) at 1.
      rewrite <- inject_Z_plus, <- Zle_Qle. lia. }
  set (cq := inject_Z c) in *. set (rq := inject_Z r) in *.
  set (Rq := inject_Z R) in *. clearbody cq rq Rq.
  assert (Hu1 : 10 < u).
  { destruct (Qlt_le_dec 10 u) as [|Hle]; [assumption|].
    assert (0 <= (10 - u) * Rq) by (apply Qmult_le_0_compat; lra).
    lra. }
  assert (0 <= rq * u) by (apply Qmult_le_0_compat; lra).
  assert (0 <= (Rq - (rq + 1)) * u) by (apply Qmult_le_0_compat; lra).
  unfold within_canvas, PAD, canvasWidth, canvasHeight.
  rewrite Hh, Hy, Hw, Hx.
  repeat split; lra.
Qed.

End GridFacts.

Section DrawFacts.
Context {Image : Type}.
Variable textWidth : value -> Q.
Implicit Types (g : Globals Image) (it : Item Image).

Lemma gt_true (a b : Q) : gt a b = true <-> b < a.
Proof.
  unfold gt. rewrite negb_true_iff. split.
  - intros E. apply Qnot_le_lt. intros Hle.
    apply Qle_bool_iff in Hle. congruence.
  - intros Hlt. destruct (Qle_bool a b) eqn:E; [|reflexivity].
    apply Qle_bool_iff in E. lra.
Qed.

Lemma gt_false (a b : Q) : gt a b = false <-> a <= b.
Proof.
  unfold gt. rewrite negb_false_iff. apply Qle_bool_iff.
Qed.

Lemma max2_bounds (a b : Q) : a <= max2 a b /\ b <= max2 a b.
Proof.
  unfold max2. destruct (Qle_bool a b) eqn:E.
  - apply Qle_bool_iff in E. lra.
  - assert (b < a) by (apply gt_true; unfold gt; now rewrite E). lra.
Qed.

Lemma max2_least (a b c : Q) : a <= c -> b <= c -> max2 a b <= c.
Proof. unfold max2. now destruct (Qle_bool a b). Qed.

(** X4. The tooltip is as wide as its wider line plus 16 and 48 high; its
    right and bottom edges never leave the 900 x 560 canvas; and for a
    pointer at non-negative coordinates its left and top edges stay on the
    canvas exactly when no line is wider than 876. *)
Theorem tooltip_box_on_canvas it (mouseX mouseY : Q) :
  let box := tooltipBox textWidth it mouseX mouseY in
  let boxX := fst (fst (fst box)) in
  let boxY := snd (fst (fst box)) in
  let boxW := snd (fst box) in
  let boxH := snd box in
  let maxW := max2 (max2 0 (textWidth (title (base it))))
                   (textWidth (artist (base it))) in
  boxW == maxW + 16 /\ boxH == 48 /\
  0 <= maxW /\
  textWidth (title (base it)) <= maxW /\
  textWidth (artist (base it)) <= maxW /\
  boxX + boxW <= canvasWidth /\
  boxY + boxH <= canvasHeight /\
  (0 <= mouseX -> 0 <= mouseY ->
   (0 <= boxX /\ 0 <= boxY <-> maxW <= 876)).
Proof.
  unfold tooltipBox, tooltipLines, canvasWidth, canvasHeight.
  cbn [fold_left length fst snd].
  set (maxW := max2 (max2 0 (textWidth (title (base it))))
                    (textWidth (artist (base it)))).
  pose proof (max2_bounds 0 (textWidth (title (base it)))) as [H0 Ht].
  pose proof (max2_bounds (max2 0 (textWidth (title (base it))))
                (textWidth (artist (base it)))) as [H1 Ha].
  fold maxW in H1, Ha.
  assert (HH : num 2 * 16 + 8 * 2 == 48) by reflexivity.
  split; [ring|]. split; [exact HH|]. split; [lra|]. split; [lra|].
  split; [lra|].
  destruct (gt (mouseX + 12 + (maxW + 8 * 2)) 900) eqn:Ex;
    destruct (gt (mouseY + 12 + (num 2 * 16 + 8 * 2)) 560) eqn:Ey;
    try apply gt_true in Ex; try apply gt_false in Ex;
    try apply gt_true in Ey; try apply gt_false in Ey;
    rewrite ?HH in *; repeat split; intros; try lra.
  all: try (destruct H2; lra).
Qed.

Lemma render_drawMsg (colour : Q * Q) (msg : string) :
  render colour (@drawMsg Image msg) = [].
Proof. reflexivity. Qed.

(** The tiles are painted one after the other, whatever the fill colour
    before them and whatever is drawn after them. *)
Lemma render_tiles (tiles : list (Item Image)) (colour : Q * Q)
    (rest : list Cmd) :
  exists colour',
    render colour (flat_map drawTile tiles ++ rest)
    = map tilePaint tiles ++ render colour' rest.
Proof.
  revert colour. induction tiles as [|t ts IH]; intros colour.
  - now exists colour.
  - cbn [flat_map map]. rewrite <- app_assoc.
    unfold drawTile at 1, tilePaint at 1, bounds.
    destruct (img t) as [i|]; cbn [app render].
    + destruct (IH colour) as [c' ->]. now exists c'.
    + destruct (IH (0, 25)) as [c' ->]. now exists c'.
Qed.

Lemma render_textLines (colour : Q * Q) (lines : list value) (tx ty : Q) :
  render colour (@textLines Image lines tx ty) = [].
Proof.
  revert ty. induction lines as [|l rest IH]; intros ty; [reflexivity|].
  cbn. apply IH.
Qed.

Lemma render_tooltip (colour : Q * Q) it (mouseX mouseY : Q) :
  render colour (drawTooltip textWidth it mouseX mouseY)
  = [PaintRect (tooltipBox textWidth it mouseX mouseY) (255, 245) (Some 8)].
Proof.
  unfold drawTooltip.
  destruct (tooltipBox textWidth it mouseX mouseY) as [[[bx by_] bw] bh].
  cbn [app render]. now rewrite render_textLines.
Qed.

(** X5. What a frame paints.  While the session is loading, shows an error
    or has no tile, [draw] paints nothing, it only writes a message.
    Otherwise it paints each tile once, in stored order and at its bounds:
    the tile's image when it has one, and when the image is absent a
    rectangle filled with (0, 25); then, if a tile is hovered, the tooltip
    box filled with (255, 245) and rounded by 8.  None of this depends on
    the fill colour left by the previous frame. *)
Theorem draw_paints_every_tile g (mouseX mouseY : Q) (colour : Q * Q) :
  (phase g <> Ready \/ items g = [] ->
   render colour (draw textWidth g mouseX mouseY) = [] /\
   exists msg, draw textWidth g mouseX mouseY = Background 255 :: drawMsg msg) /\
  (phase g = Ready -> items g <> [] ->
   render colour (draw textWidth g mouseX mouseY)
   = map tilePaint (items g)
     ++ match getHoveredItem (items g) mouseX mouseY with
        | Some hover =>
            [PaintRect (tooltipBox textWidth hover mouseX mouseY)
               (255, 245) (Some 8)]
        | None => []
        end) /\
  (forall (i : nat) t,
     phase g = Ready -> items g !! i = Some t ->
     render colour (draw textWidth g mouseX mouseY) !! i
     = Some (match img t with
             | Some im => PaintImage im (x t, y t, w t, h t)
             | None => PaintRect (x t, y t, w t, h t) (0, 25) None
             end)).
Proof.
  assert (Hgrid : phase g = Ready -> items g <> [] ->
    render colour (draw textWidth g mouseX mouseY)
    = map tilePaint (items g)
      ++ match getHoveredItem (items g) mouseX mouseY with
         | Some hover =>
             [PaintRect (tooltipBox textWidth hover mouseX mouseY)
                (255, 245) (Some 8)]
         | None => []
         end).
  { unfold draw, phase. intros Hp Hne. destruct (loading g); [discriminate|].
    assert (Hlen : (length (items g) =? 0)%nat = false)
      by (destruct (items g); [contradiction|reflexivity]).
    assert (Hfr :
      render colour
        (Background 255 ::
         flat_map drawTile (items g)
         ++ match getHoveredItem (items g) mouseX mouseY with
            | Some hover => drawTooltip textWidth hover mouseX mouseY
            | None => []
            end)
      = map tilePaint (items g)
        ++ match getHoveredItem (items g) mouseX mouseY with
           | Some hover =>
               [PaintRect (tooltipBox textWidth hover mouseX mouseY)
                  (255, 245) (Some 8)]
           | None => []
           end).
    { cbn [render].
      destruct (render_tiles (items g) colour
                  match getHoveredItem (items g) mouseX mouseY with
                  | Some hover => drawTooltip textWidth hover mouseX mouseY
                  | None => []
                  end) as [c' ->].
      f_equal. destruct (getHoveredItem (items g) mouseX mouseY);
        [apply render_tooltip|reflexivity]. }
    destruct (errMsg g) as [[|c m]|]; [|discriminate|];
      rewrite Hlen; exact Hfr. }
  split; [|split; [exact Hgrid|]].
  - unfold draw, phase.
    intros Hm. destruct (loading g); [split; [reflexivity|eauto]|].
    destruct (errMsg g) as [[|c m]|]; try (split; [reflexivity|eauto]).
    + destruct Hm as [Hm|Hm]; [congruence|]. rewrite Hm. cbn.
      split; [reflexivity|eauto].
    + destruct Hm as [Hm|Hm]; [congruence|]. rewrite Hm. cbn.
      split; [reflexivity|eauto].
  - intros i t Hp Hi.
    assert (Hne : items g <> []) by (intros E; rewrite E in Hi; discriminate).
    rewrite (Hgrid Hp Hne).
    rewrite lookup_app_l by (rewrite length_map; eapply lookup_lt_Some; eauto).
    rewrite list_lookup_fmap, Hi. reflexivity.
Qed.

End DrawFacts.

Section SearchFacts.
Context `{Collaborators}.
Implicit Types (g : Globals Image) (net : World).
Local Open Scope string_scope.

(** While [fetchObject] and the fetch loop run, the globals on display do
    not change. *)
Lemma fetchObject_seen (id : value) g net :
  Forall (fun g' => g' = g) (seen (fetchObject id g net)).
Proof.
  unfold fetchObject, try_catch, bind, await, ret, throw.
  destruct (fetchDetail id net) as [[res|m] net1]; cbn;
    [|repeat constructor].
  destruct (ok res); cbn; [|repeat constructor].
  destruct (json res) as [d|m]; cbn; [|repeat constructor].
  destruct (nullish d); cbn; [repeat constructor|].
  destruct (truthy (js_or (prop d "primaryImageSmall") (VStr EmptyString)));
    cbn; repeat constructor.
Qed.

Lemma fetchLoop_seen (ids : list value) (picked0 : list DetailRecord) g net :
  Forall (fun g' => g' = g) (seen (fetchLoop ids picked0 g net)).
Proof.
  revert picked0 g net.
  induction ids as [|id rest IH]; intros picked0 g net; cbn [fetchLoop].
  - constructor.
  - destruct (length picked0 <? MAX_ITEMS)%nat; [|constructor].
    destruct (fetchObject_run id g net) as (o & Ho & Hg & _).
    destruct (bind_ok (fetchObject id)
                (fun obj => fetchLoop rest
                   (match obj with Some r => (picked0 ++ [r])%list | None => picked0 end))
                g net o Ho) as (_ & _ & _ & Es).
    rewrite Es, Hg. apply Forall_app. split; [apply fetchObject_seen|apply IH].
Qed.

(** The [try] statement once the search has found identifiers: the fetch
    loop runs, then either the early return of lines 129-133 or the preload
    loop, the layout and the final status. *)
Lemma searchMet_try_found (query : string) net (res : Response SearchJson)
    (body : SearchJson) (net1 : World) (ids : list value)
    (picked : list DetailRecord) :
  fetchSearch query net = (Ok res, net1) ->
  ok res = true ->
  json res = Ok body ->
  objectIDs body = Some ids ->
  ids <> [] ->
  let rl := fetchLoop ids [] (found (length ids)) net1 in
  outcome rl = Ok picked ->
  match picked with
  | [] =>
      searchMet_try query (searching query) net
      = mkRun ([searching query; searching query] ++ seen rl) (Ok tt)
          (set_loading false (set_loading false
             (setStatus "found stuff but none had usable images. try another keyword."
                (globals rl))))
          (world rl)
  | _ :: _ =>
      let rp := preload picked (globals rl) (world rl) in
      outcome rp = Ok tt ->
      searchMet_try query (searching query) net
      = mkRun ([searching query; searching query] ++ seen rl ++ seen rp) (Ok tt)
          (set_loading false
             (setStatus
                ("loaded "
                   ++ decimal (length (layoutGrid canvasWidth canvasHeight
                                         (items (globals rp))))
                   ++ " images for " ++ dq ++ query ++ dq
                   ++ ". hover for info, click to open met page.")
                (set_items (layoutGrid canvasWidth canvasHeight (items (globals rp)))
                   (globals rp))))
          (world rp)
  end.
Proof.
  intros Hf Hok Hj Hids Hne rl Hrl. subst rl.
  assert (Hlen : (length ids =? 0)%nat = false)
    by (destruct ids; [contradiction|reflexivity]).
  unfold searchMet_try, try_finally, try_catch, bind, await, throw, ret, update,
    get, found, searching, setStatus, set_loading, set_items, set_errMsg.
  rewrite Hf. cbn -[preload]. rewrite Hok. cbn -[preload].
  rewrite Hj. cbn -[preload]. rewrite Hids, Hlen. cbn -[preload].
  unfold found in Hrl. cbn in Hrl. revert Hrl.
  match goal with
  | |- context [fetchLoop ids [] ?g0 net1] =>
      destruct (fetchLoop ids [] g0 net1) as [sl ol gl nl]
  end.
  cbn -[preload]. intros ->.
  destruct picked as [|p ps]; [cbn; now rewrite !app_nil_r|].
  assert (Hpl : (length (p :: ps) =? 0)%nat = false) by reflexivity.
  remember (p :: ps) as pk eqn:Epk. clear Epk.
  rewrite Hpl.
  destruct (preload pk gl nl) as [sp op gp np]. cbn.
  intros ->. rewrite ?app_nil_r, <- ?app_assoc. reflexivity.
Qed.

(** The [try] statement when the search finds no identifier. *)
Lemma searchMet_try_no_ids (query : string) net (res : Response SearchJson)
    (body : SearchJson) (net1 : World) :
  fetchSearch query net = (Ok res, net1) ->
  ok res = true ->
  json res = Ok body ->
  objectIDs body = None \/ objectIDs body = Some [] ->
  searchMet_try query (searching query) net
  = mkRun [searching query; searching query] (Ok tt) (no_matches query) net1.
Proof.
  intros Hf Hok Hj Hids.
  unfold searchMet_try, try_finally, try_catch, bind, await, throw, ret, update.
  rewrite Hf. cbn. rewrite Hok. cbn. rewrite Hj. cbn.
  destruct Hids as [-> | ->]; reflexivity.
Qed.

(** What the preload loop shows while it runs: the session keeps its
    [loading] and [errMsg], and the tiles pushed so far. *)
Lemma preloadLoop_shows (rest : list DetailRecord) (i n : nat) g net :
  Forall (fun g' => loading g' = loading g /\ errMsg g' = errMsg g /\
                    (Forall zero_bounds (items g) -> Forall zero_bounds (items g')) /\
                    (length (items g') <= length (items g) + length rest)%nat)
         (seen (preloadLoop rest i n g net)).
Proof.
  revert i g net. induction rest as [|b rest IH]; intros i g net.
  - constructor.
  - rewrite preloadLoop_step.
    destruct (loadImage (imageUrl b) net) as [im net1]. cbv zeta.
    match goal with
    | |- context [preloadLoop rest (S i) n ?g1 net1] =>
        pose proof (IH (S i) g1 net1) as IH1;
        destruct (preloadLoop rest (S i) n g1 net1) as [s o g2 net2]
    end.
    cbn in IH1 |- *. constructor.
    + repeat split; [trivial|lia].
    + eapply Forall_impl; [exact IH1|]. cbn.
      intros g' (Hl & He & Hz & Hlen). repeat split; try assumption.
      * intros Hg. apply Hz. apply Forall_app. split; [exact Hg|].
        repeat constructor; reflexivity.
      * rewrite length_app in Hlen. cbn in Hlen. lia.
Qed.

Lemma preload_run (picked : list DetailRecord) g net :
  exists tiles,
    outcome (preload picked g net) = Ok tt /\
    items (globals (preload picked g net)) = tiles /\
    loading (globals (preload picked g net)) = loading g /\
    errMsg (globals (preload picked g net)) = errMsg g /\
    map base tiles = picked /\
    loaded net tiles (world (preload picked g net)) /\
    Forall (fun g' => loading g' = loading g /\ errMsg g' = errMsg g /\
                      Forall zero_bounds (items g') /\
                      (length (items g') <= length picked)%nat)
           (seen (preload picked g net)).
Proof.
  unfold preload. rewrite bind_update.
  destruct (preloadLoop_run picked 0 (length picked) (set_items [] g) net)
    as (tiles & Ho & Hit & Hlo & Her & Hb & Hl).
  exists tiles. cbn [items set_items app loading errMsg] in Hit, Hlo, Her.
  split; [exact Ho|]. split; [exact Hit|]. split; [exact Hlo|].
  split; [exact Her|]. split; [exact Hb|]. split; [exact Hl|].
  eapply Forall_impl; [apply preloadLoop_shows|]. cbn.
  intros g' (Hl' & He' & Hz & Hlen). repeat split; try assumption.
  apply Hz. constructor.
Qed.

(** Every run of [searchMet]: either the search step fails, or identifiers
    are tried in order, the accepted records are preloaded in order and the
    session settles. *)
Lemma searchMet_anatomy (query : string) g net :
  let r := searchMet query g net in
  outcome r = Ok tt /\
  ((exists message,
      search_fails query net message /\
      globals r = failed message /\
      Forall (fun g' => g' = searching query) (seen r)) \/
   (exists res body net1 tried tiles netA,
      fetchSearch query net = (Ok res, net1) /\
      ok res = true /\ json res = Ok body /\
      let ids := match objectIDs body with Some a => a | None => [] end in
      attempts net1 tried netA /\
      map fst tried `prefix_of` ids /\
      (map fst tried = ids \/ length (omap snd tried) = MAX_ITEMS) /\
      (length (omap snd tried) <= MAX_ITEMS)%nat /\
      loaded netA tiles (world r) /\
      map base tiles = omap snd tried /\
      globals r = settled query ids tiles /\
      Forall (searching_screen tiles) (seen r))).
Proof.
  cbv zeta. rewrite searchMet_start.
  assert (Hfail : forall message,
             search_fails query net message ->
             outcome (searchMet_try query (searching query) net) = Ok tt /\
             ((exists message,
                 search_fails query net message /\
                 globals (searchMet_try query (searching query) net) = failed message /\
                 Forall (fun g' => g' = searching query)
                   (seen (searchMet_try query (searching query) net))) \/
              (exists res body net1 tried tiles netA,
                 fetchSearch query net = (Ok res, net1) /\
                 ok res = true /\ json res = Ok body /\
                 let ids := match objectIDs body with Some a => a | None => [] end in
                 attempts net1 tried netA /\
                 map fst tried `prefix_of` ids /\
                 (map fst tried = ids \/ length (omap snd tried) = MAX_ITEMS) /\
                 (length (omap snd tried) <= MAX_ITEMS)%nat /\
                 loaded netA tiles (world (searchMet_try query (searching query) net)) /\
                 map base tiles = omap snd tried /\
                 globals (searchMet_try query (searching query) net)
                 = settled query ids tiles /\
                 Forall (searching_screen tiles)
                   (seen (searchMet_try query (searching query) net))))).
  { intros message Hm.
    destruct (searchMet_try_fails query net message Hm) as (s & -> & Hs).
    split; [reflexivity|]. left. exists message. now repeat split. }
  assert (Hscr : forall tiles, searching_screen tiles (searching query)).
  { intros tiles. repeat split; cbn; [constructor|lia]. }
  destruct (fetchSearch query net) as [[res|m] net1] eqn:Hf.
  2:{ apply (Hfail m). unfold search_fails. now rewrite Hf. }
  destruct (ok res) eqn:Hok.
  2:{ apply (Hfail ("search http " ++ decimalN (status res))).
      unfold search_fails. rewrite Hf. cbn [fst]. now rewrite Hok. }
  destruct (json res) as [body|m] eqn:Hj.
  2:{ apply (Hfail m). unfold search_fails. rewrite Hf. cbn [fst].
      now rewrite Hok. }
  clear Hfail.
  assert (Hnone : objectIDs body = None \/ objectIDs body = Some [] ->
            outcome (searchMet_try query (searching query) net) = Ok tt /\
            exists tried tiles netA,
              let ids := match objectIDs body with Some a => a | None => [] end in
              attempts net1 tried netA /\
              map fst tried `prefix_of` ids /\
              (map fst tried = ids \/ length (omap snd tried) = MAX_ITEMS) /\
              (length (omap snd tried) <= MAX_ITEMS)%nat /\
              loaded netA tiles (world (searchMet_try query (searching query) net)) /\
              map base tiles = omap snd tried /\
              globals (searchMet_try query (searching query) net)
              = settled query ids tiles /\
              Forall (searching_screen tiles)
                (seen (searchMet_try query (searching query) net))).
  { intros Hids.
    rewrite (searchMet_try_no_ids query net res body net1 Hf Hok Hj Hids).
    split; [reflexivity|]. exists [], [], net1. cbv zeta.
    assert (Hd : match objectIDs body with Some a => a | None => [] end = [])
      by (destruct Hids as [-> | ->]; reflexivity).
    rewrite Hd. cbn.
    split; [constructor|]. split; [reflexivity|]. split; [now left|].
    split; [unfold MAX_ITEMS; lia|]. split; [constructor|].
    split; [reflexivity|]. split; [reflexivity|].
    repeat constructor; apply Hscr. }
  destruct (objectIDs body) as [ids|] eqn:Hids.
  2:{ destruct (Hnone (or_introl eq_refl)) as (Ho & tried & tiles & netA & Hrest).
      split; [exact Ho|]. right. exists res, body, net1, tried, tiles, netA.
      rewrite Hids. cbv zeta in Hrest.
      split; [reflexivity|]. split; [exact Hok|]. split; [exact Hj|].
      exact Hrest. }
  destruct ids as [|id ids].
  { destruct (Hnone (or_intror eq_refl)) as (Ho & tried & tiles & netA & Hrest).
    split; [exact Ho|]. right. exists res, body, net1, tried, tiles, netA.
    rewrite Hids. cbv zeta in Hrest.
    split; [reflexivity|]. split; [exact Hok|]. split; [exact Hj|].
    exact Hrest. }
  clear Hnone.
  set (l := id :: ids) in *.
  assert (Hne : l <> []) by discriminate.
  destruct (fetchLoop_run l [] (found (length l)) net1) as
    (tried & Hout & Hgl & Hatt & Hpre & Hlen & _ & Hstop); [cbn; lia|].
  cbn [app] in Hout, Hlen, Hstop.
  pose proof (fetchLoop_seen l [] (found (length l)) net1) as Hsl.
  pose proof (searchMet_try_found query net res body net1 l (omap snd tried)
                Hf Hok Hj Hids Hne Hout) as Hrun.
  destruct (omap snd tried) as [|p ps] eqn:Hpicked.
  - rewrite Hrun. cbn [outcome globals world seen]. split; [reflexivity|].
    right. exists res, body, net1, tried, [], (world (fetchLoop l [] (found (length l)) net1)).
    rewrite Hids. cbv zeta. rewrite Hpicked, Hgl.
    split; [reflexivity|]. split; [exact Hok|]. split; [exact Hj|].
    split; [exact Hatt|]. split; [exact Hpre|]. split; [exact Hstop|].
    split; [exact Hlen|]. split; [constructor|]. split; [reflexivity|].
    split; [reflexivity|].
    repeat constructor; try apply Hscr.
    eapply Forall_impl; [exact Hsl|]. intros g' ->.
    repeat split; cbn; [constructor|lia].
  - cbv zeta in Hrun. rewrite Hgl in Hrun.
    destruct (preload_run (p :: ps) (found (length l))
                (world (fetchLoop l [] (found (length l)) net1)))
      as (tiles & Hpo & Hpi & Hpl & Hpe & Hpb & Hpld & Hps).
    rewrite (Hrun Hpo). cbn [outcome globals world seen]. split; [reflexivity|].
    right. exists res, body, net1, tried, tiles,
             (world (fetchLoop l [] (found (length l)) net1)).
    rewrite Hids. cbv zeta. rewrite Hpicked.
    cbn [loading errMsg found] in Hpl, Hpe, Hps.
    assert (Htl : length tiles = length (p :: ps))
      by (rewrite <- Hpb; now rewrite length_map).
    split; [reflexivity|]. split; [exact Hok|]. split; [exact Hj|].
    split; [exact Hatt|]. split; [exact Hpre|]. split; [exact Hstop|].
    split; [exact Hlen|]. split; [exact Hpld|]. split; [exact Hpb|].
    split.
    + unfold set_loading, setStatus, set_items.
      cbn [loading errMsg items statusText].
      rewrite Hpi, Hpe, layoutGrid_length.
      destruct tiles as [|t ts]; [discriminate Htl|]. reflexivity.
    + repeat constructor; try apply Hscr.
      apply Forall_app. split.
      * eapply Forall_impl; [exact Hsl|]. intros g' ->.
        repeat split; cbn; [constructor|lia].
      * eapply Forall_impl; [exact Hps|]. cbn.
        intros g' (Hl' & He' & Hz & Hn). unfold searching_screen.
        rewrite Htl. now repeat split.
Qed.

Lemma searchMet_screens (query : string) g net :
  Forall (fun g' => loading g' = true /\ errMsg g' = None /\
                    Forall zero_bounds (items g') /\
                    (length (items g') <= MAX_ITEMS)%nat)
         (seen (searchMet query g net)).
Proof.
  destruct (searchMet_anatomy query g net) as (_ & [Hc|Hc]).
  - destruct Hc as (message & _ & _ & Hs).
    eapply Forall_impl; [exact Hs|]. intros g' ->.
    repeat split; cbn; [constructor|unfold MAX_ITEMS; lia].
  - destruct Hc as (res & body & net1 & tried & tiles & netA & _ & _ & _ & Hc).
    cbv zeta in Hc.
    destruct Hc as (_ & _ & _ & Hlen & _ & Hb & _ & Hs).
    assert (Htl : length tiles = length (omap snd tried))
      by (rewrite <- Hb; now rewrite length_map).
    eapply Forall_impl; [exact Hs|].
    intros g' (Hl & He & Hz & Hn). repeat split; try assumption. lia.
Qed.

Lemma searchMet_final (query : string) g net :
  loading (globals (searchMet query g net)) = false /\
  (length (items (globals (searchMet query g net))) <= MAX_ITEMS)%nat /\
  Forall within_canvas (items (globals (searchMet query g net))) /\
  (errMsg (globals (searchMet query g net)) <> None ->
   items (globals (searchMet query g net)) = []).
Proof.
  destruct (searchMet_anatomy query g net) as (_ & [Hc|Hc]).
  - destruct Hc as (message & _ & -> & _). cbn.
    split; [reflexivity|]. split; [unfold MAX_ITEMS; lia|].
    split; [constructor|reflexivity].
  - destruct Hc as (res & body & net1 & tried & tiles & netA & _ & _ & _ & Hc).
    cbv zeta in Hc.
    destruct Hc as (_ & _ & _ & Hlen & _ & Hb & -> & _).
    assert (Htl : length tiles = length (omap snd tried))
      by (rewrite <- Hb; now rewrite length_map).
    assert (Hempty : forall g0 : Globals Image,
               loading g0 = false -> items g0 = [] ->
               loading g0 = false /\ (length (items g0) <= MAX_ITEMS)%nat /\
               Forall within_canvas (items g0) /\
               (errMsg g0 <> None -> items g0 = [])).
    { intros g0 Hl0 Hi0. rewrite Hi0. split; [exact Hl0|].
      split; [cbn; unfold MAX_ITEMS; lia|]. split; [constructor|reflexivity]. }
    unfold settled.
    destruct (match objectIDs body with Some a => a | None => [] end);
      [now apply Hempty|].
    destruct tiles as [|t ts]; [now apply Hempty|].
    cbn [laid_out loading items errMsg].
    split; [reflexivity|]. split; [rewrite layoutGrid_length; lia|].
    split; [|congruence].
    apply Forall_lookup. intros i tile Hl.
    apply (layoutGrid_tile_within (t :: ts) i tile); [|exact Hl].
    unfold MAX_ITEMS in Hlen. lia.
Qed.

(** X6. [searchMet] never throws and always ends with [loading] false; at
    every suspension point [loading] is true and [errMsg] is null, so every
    frame drawn while a search runs is the loading message, whatever tiles
    have been pushed. *)
Theorem searchMet_always_settles (query : string) g net :
  let r := searchMet query g net in
  outcome r = Ok tt /\
  loading (globals r) = false /\
  Forall (fun g' =>
            loading g' = true /\ errMsg g' = None /\ phase g' = Loading /\
            forall (textWidth : value -> Q) (mouseX mouseY : Q),
              draw textWidth g' mouseX mouseY
              = Background 255 :: drawMsg ("loading" ++ ellipsis))
         (seen r).
Proof.
  cbv zeta. split; [apply searchMet_anatomy|].
  split; [apply searchMet_final|].
  eapply Forall_impl; [apply searchMet_screens|]. cbn.
  intros g' (Hl & He & _ & _).
  unfold phase, draw. rewrite Hl. now repeat split.
Qed.

(** X7. Invariants of the tile list over a whole search: at every
    suspension point it holds at most [MAX_ITEMS] tiles, all with zero
    bounds; at the end it holds at most [MAX_ITEMS] tiles, every one laid
    out with positive size inside the padded canvas; and it is empty
    whenever the search ends with an error message. *)
Theorem searchMet_tiles_capped_and_laid_out (query : string) g net :
  let r := searchMet query g net in
  Forall (fun g' => (length (items g') <= MAX_ITEMS)%nat /\
                    Forall zero_bounds (items g'))
         (seen r) /\
  (length (items (globals r)) <= MAX_ITEMS)%nat /\
  Forall within_canvas (items (globals r)) /\
  (errMsg (globals r) <> None -> items (globals r) = []).
Proof.
  cbv zeta. split; [|apply searchMet_final].
  eapply Forall_impl; [apply searchMet_screens|]. cbn.
  intros g' (_ & _ & Hz & Hn). now split.
Qed.

(** X8. When the search step succeeds, the session ends Ready and the grid
    shows exactly the accepted records, in candidate order: the identifiers
    are tried in the order of [objectIDs], the accepted records are
    preloaded in that order, one tile each, and laid out. *)
Theorem searchMet_grid_in_candidate_order (query : string) g net
    (res : Response SearchJson) (body : SearchJson) (net1 : World) :
  fetchSearch query net = (Ok res, net1) ->
  ok res = true ->
  json res = Ok body ->
  let r := searchMet query g net in
  let ids := match objectIDs body with Some a => a | None => [] end in
  exists tried tiles netA,
    attempts net1 tried netA /\
    map fst tried `prefix_of` ids /\
    (map fst tried = ids \/ length (omap snd tried) = MAX_ITEMS) /\
    loaded netA tiles (world r) /\
    items (globals r) = layoutGrid canvasWidth canvasHeight tiles /\
    map base (items (globals r)) = omap snd tried /\
    map img (items (globals r)) = map img tiles /\
    errMsg (globals r) = None /\
    phase (globals r) = Ready.
Proof.
  intros Hf Hok Hj. cbv zeta.
  destruct (searchMet_anatomy query g net) as (_ & [Hc|Hc]).
  - destruct Hc as (message & Hfail & _).
    unfold search_fails in Hfail. rewrite Hf in Hfail. cbn [fst] in Hfail.
    rewrite Hok in Hfail. congruence.
  - destruct Hc as (res' & body' & net1' & tried & tiles & netA & Hf' & _ & Hj' & Hc).
    rewrite Hf in Hf'. injection Hf' as <- <-.
    rewrite Hj in Hj'. injection Hj' as <-.
    cbv zeta in Hc.
    destruct Hc as (Hatt & Hpre & Hstop & _ & Hld & Hb & Hg & _).
    exists tried, tiles, netA.
    split; [exact Hatt|]. split; [exact Hpre|]. split; [exact Hstop|].
    split; [exact Hld|].
    assert (Hit : items (globals (searchMet query g net))
                  = layoutGrid canvasWidth canvasHeight tiles /\
                  errMsg (globals (searchMet query g net)) = None /\
                  loading (globals (searchMet query g net)) = false).
    { rewrite Hg. unfold settled.
      destruct (match objectIDs body with Some a => a | None => [] end).
      - destruct tiles; [now repeat split|].
        destruct tried as [|[i0 o0] tr]; [discriminate Hb|].
        apply prefix_nil_inv in Hpre. discriminate Hpre.
      - destruct tiles; now repeat split. }
    destruct Hit as (Hit & He & Hl).
    split; [exact Hit|].
    split; [rewrite Hit, <- Hb; apply layoutGrid_keeps_base|].
    split; [rewrite Hit; apply layoutGrid_keeps_img|].
    split; [exact He|].
    unfold phase. now rewrite Hl, He.
Qed.

(** X9. [fetchObject] returns a record exactly when the request is
    answered with an ok status and a readable, non-null body whose
    [primaryImageSmall] is truthy; every other case gives null without
    throwing.  The record takes [objectID] and the image URL from the body,
    and its title and artist are never empty: a missing or empty one is
    replaced by its placeholder, and a missing date by the empty string. *)
Theorem fetchObject_accepts (id : value) g net :
  let r := fetchObject id g net in
  (outcome r = Ok None \/ exists rec, outcome r = Ok (Some rec)) /\
  globals r = g /\
  (forall rec,
     outcome r = Ok (Some rec) <->
     exists res d,
       fst (fetchDetail id net) = Ok res /\ ok res = true /\
       json res = Ok d /\ nullish d = false /\
       truthy (prop d "primaryImageSmall") = true /\
       rec = mkDetail (prop d "objectID")
               (js_or (prop d "title") (VStr "(untitled)"))
               (js_or (prop d "artistDisplayName") (VStr "(unknown artist)"))
               (js_or (prop d "objectDate") (VStr EmptyString))
               (prop d "primaryImageSmall")) /\
  (forall rec,
     outcome r = Ok (Some rec) ->
     truthy (title rec) = true /\ truthy (artist rec) = true /\
     truthy (imageUrl rec) = true /\
     (truthy (date rec) = true \/ date rec = VStr EmptyString)).
Proof.
  assert (Hor : forall a b, truthy b = true -> truthy (js_or a b) = true).
  { intros a b Hb. unfold js_or. now destruct (truthy a) eqn:E. }
  assert (Hdate : forall a, truthy (js_or a (VStr EmptyString)) = true
                            \/ js_or a (VStr EmptyString) = VStr EmptyString).
  { intros a. unfold js_or. destruct (truthy a) eqn:E; [now left|now right]. }
  cbv zeta. unfold fetchObject, try_catch, bind, await, ret, throw.
  destruct (fetchDetail id net) as [[res|m] net1]; cbn.
  2:{ split; [now left|]. split; [reflexivity|]. split.
      - intros rec. split; [discriminate|]. intros (r0 & d & E & _). discriminate E.
      - discriminate. }
  destruct (ok res) eqn:Hok; cbn.
  2:{ split; [now left|]. split; [reflexivity|]. split.
      - intros rec. split; [discriminate|].
        intros (r0 & d & [= <-] & E & _). congruence.
      - discriminate. }
  destruct (json res) as [d|m] eqn:Hj; cbn.
  2:{ split; [now left|]. split; [reflexivity|]. split.
      - intros rec. split; [discriminate|].
        intros (r0 & d & [= <-] & _ & E & _). congruence.
      - discriminate. }
  destruct (nullish d) eqn:Hn; cbn.
  { split; [now left|]. split; [reflexivity|]. split.
    - intros rec. split; [discriminate|].
      intros (r0 & d0 & [= <-] & _ & E & E' & _). congruence.
    - discriminate. }
  assert (Himg : truthy (js_or (prop d "primaryImageSmall") (VStr EmptyString))
                 = truthy (prop d "primaryImageSmall")).
  { unfold js_or. now destruct (truthy (prop d "primaryImageSmall")) eqn:E. }
  rewrite Himg.
  destruct (truthy (prop d "primaryImageSmall")) eqn:Ht; cbn.
  - assert (Hurl : js_or (prop d "primaryImageSmall") (VStr EmptyString)
                   = prop d "primaryImageSmall")
      by (unfold js_or; now rewrite Ht).
    rewrite Hurl.
    split; [right; eexists; reflexivity|]. split; [reflexivity|]. split.
    + intros rec. split.
      * intros [= <-]. exists res, d. now repeat split.
      * intros (r0 & d0 & [= <-] & _ & E & _ & _ & ->).
        rewrite Hj in E. now injection E as <-.
    + intros rec [= <-]. cbn.
      split; [now apply Hor|]. split; [now apply Hor|].
      split; [exact Ht|apply Hdate].
  - split; [now left|]. split; [reflexivity|]. split.
    + intros rec. split; [discriminate|].
      intros (r0 & d0 & [= <-] & _ & E & _ & E' & _).
      rewrite Hj in E. injection E as <-. congruence.
    + discriminate.
Qed.

(** The fetch loop with the requests it makes, from any accumulator within
    the cap: a request is made only while fewer than [MAX_ITEMS] records
    are accepted. *)
Lemma fetchLoop_requests (ids : list value) (picked0 : list DetailRecord) g net :
  exists tried,
    outcome (fetchLoop ids picked0 g net) = Ok (picked0 ++ omap snd tried)%list /\
    attempts net tried (world (fetchLoop ids picked0 g net)) /\
    map fst tried `prefix_of` ids /\
    (forall pre suf,
       tried = (pre ++ suf)%list -> suf <> [] ->
       (length (picked0 ++ omap snd pre)%list < MAX_ITEMS)%nat).
Proof.
  revert picked0 g net.
  induction ids as [|id rest IH]; intros picked0 g net; cbn [fetchLoop].
  - exists []. cbn [omap list_omap map outcome globals world ret].
    rewrite app_nil_r.
    split; [reflexivity|]. split; [constructor|]. split; [reflexivity|].
    intros pre suf E. destruct pre; [cbn in E; now subst|discriminate E].
  - destruct (length picked0 <? MAX_ITEMS)%nat eqn:Hlt.
    + apply Nat.ltb_lt in Hlt.
      destruct (fetchObject_fetched id g net) as (o & Hf & Ho & Hg & _).
      set (picked1 := match o with Some r => (picked0 ++ [r])%list | None => picked0 end).
      destruct (IH picked1 (globals (fetchObject id g net))
                  (world (fetchObject id g net)))
        as (tried & Hout & Hatt & Hpre & Hcap).
      assert (Heq : forall l, (picked1 ++ omap snd l
                     = picked0 ++ omap snd ((id, o) :: l))%list).
      { intros l. unfold picked1.
        destruct o; cbn; [now rewrite <- app_assoc|reflexivity]. }
      exists ((id, o) :: tried).
      destruct (bind_ok (fetchObject id)
                  (fun obj => fetchLoop rest
                     (match obj with Some r => (picked0 ++ [r])%list | None => picked0 end))
                  g net o Ho) as (Eo & _ & Ew & _).
      fold picked1 in Eo, Ew.
      rewrite Eo, Ew, Hout, <- Heq.
      split; [reflexivity|].
      split; [econstructor; eassumption|].
      split; [cbn; now apply prefix_cons|].
      intros pre suf E Hs. destruct pre as [|a pre].
      * now rewrite app_nil_r.
      * cbn in E. injection E as <- E. rewrite <- Heq.
        exact (Hcap pre suf E Hs).
    + exists []. cbn [omap list_omap map outcome globals world ret].
      rewrite app_nil_r.
      split; [reflexivity|]. split; [constructor|]. split; [apply prefix_nil|].
      intros pre suf E. destruct pre; [cbn in E; now subst|discriminate E].
Qed.

(** X10. The fetch loop makes its detail requests one identifier after the
    other, never more than there are candidates, and never once
    [MAX_ITEMS] records are accepted: before each request fewer than 18 of
    the earlier ones were accepted. *)
Theorem fetchLoop_stops_at_cap (ids : list value) g net :
  exists tried,
    outcome (fetchLoop ids [] g net) = Ok (omap snd tried) /\
    attempts net tried (world (fetchLoop ids [] g net)) /\
    map fst tried `prefix_of` ids /\
    (length tried <= length ids)%nat /\
    (forall pre suf,
       tried = (pre ++ suf)%list -> suf <> [] ->
       (length (omap snd pre) < MAX_ITEMS)%nat).
Proof.
  destruct (fetchLoop_requests ids [] g net) as (tried & Ho & Hatt & Hpre & Hcap).
  exists tried. cbn [app] in Ho.
  split; [exact Ho|]. split; [exact Hatt|]. split; [exact Hpre|].
  split.
  - apply prefix_length in Hpre. now rewrite length_map in Hpre.
  - intros pre suf E Hs. exact (Hcap pre suf E Hs).
Qed.

Lemma attempts_rejected net (tried : list (value * option DetailRecord)) net' :
  (forall id n, match fst (fetchDetail id n) with
                | Ok r => ok r = false
                | Throw _ => True
                end) ->
  attempts net tried net' ->
  omap snd tried = [].
Proof.
  intros Hrej Hatt.
  induction Hatt as [|id o net net1 rest net' Hf _ IH]; [reflexivity|].
  cbn. rewrite IH.
  assert (Ho : o = None).
  { destruct (Hf (searching EmptyString)) as [Hout _].
    revert Hout. specialize (Hrej id net).
    unfold fetchObject, try_catch, bind, await, ret, throw.
    destruct (fetchDetail id net) as [[res|m] n1]; cbn in *.
    - rewrite Hrej. cbn. congruence.
    - congruence. }
  now rewrite Ho.
Qed.

(** X11. When the search finds identifiers but every detail request is
    rejected or answered with a non-ok status, every candidate is requested
    once, in order, and the session ends Ready with no tile and the status
    "found stuff but none had usable images. try another keyword.", not in
    error. *)
Theorem searchMet_none_usable (query : string) g net
    (res : Response SearchJson) (body : SearchJson) (net1 : World)
    (id : value) (ids : list value) :
  fetchSearch query net = (Ok res, net1) ->
  ok res = true ->
  json res = Ok body ->
  objectIDs body = Some (id :: ids) ->
  (forall id n, match fst (fetchDetail id n) with
                | Ok r => ok r = false
                | Throw _ => True
                end) ->
  let r := searchMet query g net in
  globals r = none_usable /\
  phase (globals r) = Ready /\
  exists tried,
    attempts net1 tried (world r) /\
    map fst tried = id :: ids /\
    Forall (fun a => snd a = None) tried.
Proof.
  intros Hf Hok Hj Hids Hrej. cbv zeta.
  destruct (searchMet_anatomy query g net) as (_ & [Hc|Hc]).
  - destruct Hc as (message & Hfail & _).
    unfold search_fails in Hfail. rewrite Hf in Hfail. cbn [fst] in Hfail.
    rewrite Hok in Hfail. congruence.
  - destruct Hc as (res' & body' & net1' & tried & tiles & netA & Hf' & _ & Hj' & Hc).
    rewrite Hf in Hf'. injection Hf' as <- <-.
    rewrite Hj in Hj'. injection Hj' as <-.
    cbv zeta in Hc. rewrite Hids in Hc.
    destruct Hc as (Hatt & _ & Hstop & _ & Hld & Hb & Hg & _).
    pose proof (attempts_rejected _ _ _ Hrej Hatt) as Hnone.
    rewrite Hnone in Hb, Hstop.
    destruct tiles as [|t ts]; [|discriminate Hb].
    inversion Hld; subst.
    rewrite Hg. split; [reflexivity|]. split; [reflexivity|].
    exists tried. split; [exact Hatt|]. split.
    + destruct Hstop as [E|E]; [exact E|discriminate E].
    + clear - Hnone. induction tried as [|[i1 [r1|]] tr IH]; cbn in *;
        [constructor|discriminate|constructor; [reflexivity|now apply IH]].
Qed.

(** X12. After a search that fails at the search step [draw] shows the
    message "error: " followed by the error's message and paints no tile;
    when the error's message is empty, [errMsg] is falsy and [draw] shows
    the empty-state message instead. *)
Theorem searchMet_failure_frame (query : string) g net (message : string)
    (textWidth : value -> Q) (mouseX mouseY : Q) :
  search_fails query net message ->
  draw textWidth (globals (searchMet query g net)) mouseX mouseY
  = Background 255 ::
    drawMsg (match message with
             | EmptyString => "no images yet. try another keyword."
             | String _ _ => "error: " ++ message
             end).
Proof.
  intros Hfail. rewrite searchMet_start.
  destruct (searchMet_try_fails query net message Hfail) as (s & -> & _).
  cbn [globals]. unfold draw, failed. cbn [loading errMsg items].
  now destruct message.
Qed.

Section HandlerFacts.
Variable trim : string -> string.

(** X13. The "go" handler does nothing for a keyword that is empty once
    trimmed: no global changes, no request is made, nothing is awaited.
    The search that [setup] starts has no such guard: with an empty field
    it searches for the empty keyword, so the session is suspended on that
    request showing loading, and a rejection of it ends the session in
    error. *)
Theorem goClick_guards_empty_keyword (fieldValue : string) g net :
  (trim fieldValue = EmptyString ->
   goClick trim fieldValue g net = mkRun [] (Ok tt) g net) /\
  (trim fieldValue <> EmptyString ->
   goClick trim fieldValue g net = searchMet (trim fieldValue) g net) /\
  (trim fieldValue = EmptyString ->
   (exists rest,
      seen (setupSearch trim fieldValue g net)
      = searching EmptyString :: rest) /\
   loading (searching EmptyString) = true /\
   (forall m, fst (fetchSearch EmptyString net) = Throw m ->
              globals (setupSearch trim fieldValue g net) = failed m)).
Proof.
  unfold goClick, setupSearch.
  split; [|split].
  - now intros ->.
  - intros Hne. destruct (trim fieldValue); [contradiction|reflexivity].
  - intros ->. split; [|split; [reflexivity|]].
    + rewrite searchMet_start.
      apply seen_try_finally, seen_try_catch, seen_bind_await.
    + intros m Hm. rewrite searchMet_start.
      destruct (searchMet_try_fails EmptyString net m) as (s & -> & _);
        [|reflexivity].
      unfold search_fails. now rewrite Hm.
Qed.

End HandlerFacts.

End SearchFacts.

(** ** The further theorems at concrete inputs *)

Lemma layoutGrid_idempotent_witness :
  ([] : list (Item string)) = [] /\
  layoutGrid 900 560 ([] : list (Item string)) = [] /\
  layoutGrid 900 560 (layoutGrid 900 560 [pushed 1; pushed 2])
  = layoutGrid 900 560 [pushed 1; pushed 2].
Proof.
  split; [reflexivity|]. split.
  - exact (proj1 (proj2 (proj2 (proj2
             (layoutGrid_idempotent 900 560 ([] : list (Item string))))))
             eq_refl).
  - exact (proj2 (proj2 (proj2 (proj2
             (layoutGrid_idempotent 900 560 [pushed 1; pushed 2]))))).
Defined.

Lemma hover_laid_out_grid_witness :
  exists t,
    layoutGrid 900 560 [pushed 1; pushed 2] !! 0%nat = Some t /\
    inside 100 100 t /\
    getHoveredItem (layoutGrid 900 560 [pushed 1; pushed 2]) 100 100 = Some t.
Proof.
  eexists. split; [reflexivity|].
  match goal with
  | |- inside 100 100 ?t /\ _ =>
      assert (Hin : inside 100 100 t)
        by (repeat split; vm_compute; discriminate)
  end.
  split; [exact Hin|].
  apply (proj1 (hover_laid_out_grid 900 560 [pushed 1; pushed 2] 100 100)).
  split; [|exact Hin].
  apply elem_of_cons. now left.
Defined.

Lemma click_opens_tile_under_pointer_witness :
  in_padding_or_gap (length [pushed 1; pushed 2]) 5 5 /\
  mousePressed
    (mkGlobals string false None
       (layoutGrid canvasWidth canvasHeight [pushed 1; pushed 2])
       "loaded 2 images") 5 5 = None.
Proof.
  assert (Hreg : in_padding_or_gap (length [pushed 1; pushed 2]) 5 5)
    by (left; reflexivity).
  split; [exact Hreg|].
  exact (proj2 (proj2 (click_opens_tile_under_pointer false None
                         "loaded 2 images" [pushed 1; pushed 2] 5 5)) Hreg).
Defined.

Lemma tooltip_box_on_canvas_witness :
  0 <= 890 /\ 0 <= 550 /\
  max2 (max2 0 (monoWidth (title (base (pushed 1)))))
       (monoWidth (artist (base (pushed 1)))) <= 876 /\
  0 <= fst (fst (fst (tooltipBox monoWidth (pushed 1) 890 550))) /\
  0 <= snd (fst (fst (tooltipBox monoWidth (pushed 1) 890 550))).
Proof.
  assert (Hx : 0 <= 890) by discriminate.
  assert (Hy : 0 <= 550) by discriminate.
  assert (Hw : max2 (max2 0 (monoWidth (title (base (pushed 1)))))
                    (monoWidth (artist (base (pushed 1)))) <= 876)
    by (vm_compute; discriminate).
  split; [exact Hx|]. split; [exact Hy|]. split; [exact Hw|].
  pose proof (tooltip_box_on_canvas monoWidth (pushed 1) 890 550) as W.
  cbv zeta in W.
  destruct W as (_ & _ & _ & _ & _ & _ & _ & W).
  exact (proj2 (W Hx Hy) Hw).
Defined.

Lemma draw_paints_every_tile_witness :
  let g := mkGlobals string false None
             (layoutGrid canvasWidth canvasHeight [withImage 1; pushed 2])
             "loaded 2 images" in
  phase g = Ready /\ items g <> [] /\
  exists r1 r2,
    render (255, 255) (draw monoWidth g 5 5)
    = [PaintImage "img/1.jpg"%string r1; PaintRect r2 (0, 25) None].
Proof.
  cbv zeta.
  set (g := mkGlobals string false None
              (layoutGrid canvasWidth canvasHeight [withImage 1; pushed 2])
              "loaded 2 images").
  assert (Hp : phase g = Ready) by reflexivity.
  assert (Hne : items g <> []) by discriminate.
  split; [exact Hp|]. split; [exact Hne|].
  rewrite (proj1 (proj2 (draw_paints_every_tile monoWidth g 5 5 (255, 255)))
             Hp Hne).
  do 2 eexists. reflexivity.
Defined.

Lemma searchMet_tiles_capped_and_laid_out_witness :
  errMsg (globals (@searchMet scripted "boom" idle 0%nat)) <> None /\
  items (globals (@searchMet scripted "boom" idle 0%nat)) = [].
Proof.
  assert (He : errMsg (globals (@searchMet scripted "boom" idle 0%nat)) <> None)
    by discriminate.
  split; [exact He|].
  exact (proj2 (proj2 (proj2
           (@searchMet_tiles_capped_and_laid_out scripted "boom" idle 0%nat))) He).
Defined.

Lemma searchMet_grid_in_candidate_order_witness :
  fetchSearch (Collaborators := scripted) "cat" 0%nat
  = (Ok (mkResponse true 200 (Ok (mkSearchJson (Some scriptedIds)))), 1%nat) /\
  exists tried : list (value * option DetailRecord),
    map fst tried `prefix_of` scriptedIds /\
    map base (items (globals (@searchMet scripted "cat" idle 0%nat)))
    = omap snd tried.
Proof.
  split; [reflexivity|].
  destruct (@searchMet_grid_in_candidate_order scripted "cat" idle 0%nat
              (mkResponse true 200 (Ok (mkSearchJson (Some scriptedIds))))
              (mkSearchJson (Some scriptedIds)) 1%nat
              eq_refl eq_refl eq_refl)
    as (tried & tiles & netA & _ & Hpre & _ & _ & _ & Hb & _).
  exists tried. split; [exact Hpre|exact Hb].
Defined.

Lemma fetchObject_accepts_witness :
  exists rec,
    outcome (@fetchObject scripted (VNum 1) idle 0%nat) = Ok (Some rec) /\
    truthy (title rec) = true /\ truthy (artist rec) = true.
Proof.
  eexists. split; [reflexivity|].
  destruct (proj2 (proj2 (proj2
              (@fetchObject_accepts scripted (VNum 1) idle 0%nat))) _ eq_refl)
    as (Ht & Ha & _).
  split; [exact Ht|exact Ha].
Defined.

Lemma fetchLoop_stops_at_cap_witness :
  exists tried : list (value * option DetailRecord),
    outcome (@fetchLoop scripted scriptedIds [] idle 0%nat)
    = Ok (omap snd tried) /\
    (length tried <= length scriptedIds)%nat.
Proof.
  destruct (@fetchLoop_stops_at_cap scripted scriptedIds idle 0%nat)
    as (tried & Ho & _ & _ & Hlen & _).
  exists tried. split; [exact Ho|exact Hlen].
Defined.

Lemma searchMet_none_usable_witness :
  fetchSearch (Collaborators := scriptedOffline) "cat" 0%nat
  = (Ok (mkResponse true 200 (Ok (mkSearchJson (Some scriptedIds)))), 1%nat) /\
  (forall id n,
     match fst (fetchDetail (Collaborators := scriptedOffline) id n) with
     | Ok r => ok r = false
     | Throw _ => True
     end) /\
  globals (@searchMet scriptedOffline "cat" idle 0%nat)
  = @none_usable scriptedOffline.
Proof.
  assert (Hrej : forall id n,
             match fst (fetchDetail (Collaborators := scriptedOffline) id n) with
             | Ok r => ok r = false
             | Throw _ => True
             end) by (intros id n; exact I).
  split; [reflexivity|]. split; [exact Hrej|].
  exact (proj1 (@searchMet_none_usable scriptedOffline "cat" idle 0%nat
                  (mkResponse true 200 (Ok (mkSearchJson (Some scriptedIds))))
                  (mkSearchJson (Some scriptedIds)) 1%nat
                  (VNum 1) [VNum 2; VNum 3; VNum 4]
                  eq_refl eq_refl eq_refl eq_refl Hrej)).
Defined.

Lemma searchMet_failure_frame_witness :
  search_fails (H := scripted) "boom" 0%nat "search http 500" /\
  draw monoWidth (globals (@searchMet scripted "boom" idle 0%nat)) 0 0
  = Background 255 :: drawMsg "error: search http 500".
Proof.
  assert (Hf : search_fails (H := scripted) "boom" 0%nat "search http 500")
    by reflexivity.
  split; [exact Hf|].
  exact (@searchMet_failure_frame scripted "boom" idle 0%nat
           "search http 500" monoWidth 0 0 Hf).
Defined.

Lemma goClick_guards_empty_keyword_witness :
  (fun s : string => s) EmptyString = EmptyString /\
  @goClick scripted (fun s => s) EmptyString idle 0%nat
  = @mkRun scripted unit [] (Ok tt) idle 0%nat.
Proof.
  split; [reflexivity|].
  exact (proj1 (@goClick_guards_empty_keyword scripted (fun s => s)
                  EmptyString idle 0%nat) eq_refl).
Defined.
